(** * RepoClient: validation and error mapping of [api_clients/repo_client.py]

    A shallow embedding of the GitHub repository client: Python strings are
    sequences of Unicode code points, dictionaries are finite maps, the
    [requests] library is an oracle answering each request, and exceptions are
    values of an error type threaded through a small monad that also records
    every request that leaves the process. *)

From Stdlib Require Import ZArith Ascii String.
From stdpp Require Import base option list gmap pretty.

Local Open Scope Z_scope.

(** ** Python strings *)

(** A [str] is a sequence of code points; [len] counts them. *)
Abbreviation char := N.
Abbreviation pystr := (list N).

(** ASCII literals of the source, as code points. *)
Definition lit (s : string) : pystr := N_of_ascii <$> list_ascii_of_string s.

Definition len (s : pystr) : Z := Z.of_nat (length s).

Definition newline : char := 10%N.

(** ** Python values

    The values that reach the client from its callers (a description, a
    privacy flag) and from decoded JSON bodies. Floats are left out. *)
#[warnings="-register-all"]
Inductive pyval :=
| VNone
| VBool (b : bool)
| VInt (z : Z)
| VStr (s : pystr)
| VList (l : list pyval)
| VDict (d : gmap pystr pyval).

(** [isinstance(v, str)] *)
Definition isinstance_str (v : pyval) : bool :=
  match v with VStr _ => true | _ => false end.

(** ** Exceptions *)

(** How [Response.json()] can fail on a body. A body that is not JSON makes
    it raise the library's [JSONDecodeError], which is a
    [RequestException]; a body whose decoding breaks a limit of the
    interpreter makes the decoder's own exception pass through [json()]
    untouched: a [ValueError] for an integer literal with too many digits,
    a [RecursionError] for nesting that is too deep. Each carries the text
    of the exception. *)
Inductive json_failure :=
| JSONDecodeError (text : pystr)
| IntegerTooLong (text : pystr)
| NestingTooDeep (text : pystr).

Record response := {
  status_code : Z;
  reason : pystr;
  url : pystr;
  (** the body as [Response.json()] sees it: the way decoding fails, or
      the decoded value *)
  json_body : json_failure + pyval
}.

(** What every [requests.exceptions.RequestException] carries: [str(e)] and
    the [response] attribute, [None] when no response was received. *)
Record request_exception := {
  exc_text : pystr;
  exc_response : option response
}.

Inductive exn :=
| ValidationError (msg : pystr)
| GitHubAPIError (msg : pystr) (status : option Z)
| RequestException (e : request_exception)
| IndexError
| KeyError (key : pystr)
| TypeError
| AttributeError
| ValueError (msg : pystr)
| RecursionError (msg : pystr).

(** Results of code that may raise. *)
Abbreviation result := (sum exn).

#[global] Instance result_ret : MRet result := λ A x, inr x.
#[global] Instance result_bind : MBind result :=
  λ A B f m, match m with inl e => inl e | inr x => f x end.

(** ** The fragment of [re] used by the client *)

Module re.

(** A character class is a list of inclusive ranges. *)
Definition class_ := list (char * char).

Inductive item :=
| Bol                      (* ^ *)
| Eol                      (* $ *)
| Class (c : class_)       (* [...] *)
| Plus (c : class_).       (* [...]+ *)

Definition pattern := list item.

Definition in_class (c : class_) (x : char) : bool :=
  existsb (fun r => (fst r <=? x)%N && (x <=? snd r)%N) c.

(** [$] without MULTILINE: the end of the string, or just before a newline
    that is the last character of the string. *)
Definition at_eol (s : pystr) : bool :=
  match s with
  | [] => true
  | [c] => (c =? newline)%N
  | _ => false
  end.

(** Backtracking match of [p] against the remaining input [s]; [start]
    tells whether [s] is still the whole subject. *)
Fixpoint match_here (p : pattern) (start : bool) (s : pystr) {struct p} : bool :=
  match p with
  | [] => true
  | Bol :: p' => start && match_here p' start s
  | Eol :: p' => at_eol s && match_here p' start s
  | Class c :: p' =>
      match s with
      | x :: s' => in_class c x && match_here p' false s'
      | [] => false
      end
  | Plus c :: p' =>
      (fix plus (s : pystr) : bool :=
         match s with
         | x :: s' => in_class c x && (plus s' || match_here p' false s')
         | [] => false
         end) s
  end.

(** [re.match(p, s)] as a truth value: a match anchored at position 0. *)
Definition match_ (p : pattern) (s : pystr) : bool := match_here p true s.

End re.

(** ** Name validation *)

(** [r'^[a-zA-Z0-9_.-]+$'] *)
Definition name_class : re.class_ :=
  [(97, 122); (65, 90); (48, 57); (95, 95); (46, 46); (45, 45)]%N.

Definition REPO_NAME_PATTERN : re.pattern :=
  [re.Bol; re.Plus name_class; re.Eol].

Definition MAX_REPO_NAME_LENGTH : Z := 100.

(** [s[i]], with Python's negative indices and its [IndexError]. *)
Definition getitem (s : pystr) (i : Z) : result char :=
  let j := if i <? 0 then i + len s else i in
  if (j <? 0) || (len s <=? j) then inl IndexError
  else match s !! Z.to_nat j with
       | Some c => inr c
       | None => inl IndexError
       end.

(** [str(n)] of an integer. *)
Definition str_int (z : Z) : pystr := lit (pretty z).

Definition msg_empty : pystr := lit "Repository name cannot be empty.".

Definition msg_too_long (n : Z) : pystr :=
  lit "Repository name cannot exceed " ++ str_int MAX_REPO_NAME_LENGTH
    ++ lit " characters. " ++ lit "Got " ++ str_int n ++ lit " characters.".

Definition msg_chars : pystr :=
  lit "Repository name can only contain alphanumeric characters, '-', '_', and '.'".

Definition msg_boundary : pystr :=
  lit "Repository name cannot start with '-' or end with '.'".

Definition dash : char := 45%N.
Definition dot : char := 46%N.

Definition _validate_repo_name (repo_name : pystr) : result unit :=
  if bool_decide (repo_name = []) then inl (ValidationError msg_empty)
  else if MAX_REPO_NAME_LENGTH <? len repo_name
  then inl (ValidationError (msg_too_long (len repo_name)))
  else if negb (re.match_ REPO_NAME_PATTERN repo_name)
  then inl (ValidationError msg_chars)
  else
    first ← getitem repo_name 0;
    if (first =? dash)%N then inl (ValidationError msg_boundary)
    else
      last ← getitem repo_name (-1);
      if (last =? dot)%N then inl (ValidationError msg_boundary)
      else inr tt.

(** ** The network as seen through [requests] *)

Inductive method := GET | POST | PATCH | DELETE.

Record request := {
  req_method : method;
  req_url : pystr;
  req_headers : gmap pystr pystr;
  req_json : option pyval;
  req_timeout : Z
}.

(** A call into [requests] either returns a response or raises one of the
    library's own exceptions (connection failure, timeout, ...). *)
Inductive outcome :=
| Responded (r : response)
| Raised (e : request_exception).

Definition remote := request → outcome.

(** Code that may raise and may talk to the network: it reads the remote
    party's behaviour and extends the log of requests issued so far. *)
Definition IO (A : Type) : Type := remote → list request → result A * list request.

#[global] Instance IO_ret : MRet IO := λ A x _ log, (inr x, log).
#[global] Instance IO_bind : MBind IO :=
  λ A B f m net log,
    match m net log with
    | (inr x, log') => f x net log'
    | (inl e, log') => (inl e, log')
    end.

Definition raise {A} (e : exn) : IO A := λ _ log, (inl e, log).

Definition lift {A} (r : result A) : IO A := λ _ log, (r, log).

(** [try: body except RequestException as e: handler e];
    any other exception passes through, as does one raised by the handler. *)
Definition try_except {A} (body : IO A) (handler : request_exception → IO A) : IO A :=
  λ net log,
    match body net log with
    | (inl (RequestException e), log') => handler e net log'
    | other => other
    end.

Definition send (r : request) : IO response :=
  λ net log,
    (match net r with
     | Responded x => inr x
     | Raised e => inl (RequestException e)
     end, log ++ [r]).

(** Runs a computation from an empty log. *)
Definition run {A} (m : IO A) (net : remote) : result A * list request := m net [].

Module requests.

Definition get (url : pystr) (headers : gmap pystr pystr) (timeout : Z) : IO response :=
  send {| req_method := GET; req_url := url; req_headers := headers;
          req_json := None; req_timeout := timeout |}.

Definition post (url : pystr) (headers : gmap pystr pystr) (json : pyval)
    (timeout : Z) : IO response :=
  send {| req_method := POST; req_url := url; req_headers := headers;
          req_json := Some json; req_timeout := timeout |}.

Definition patch (url : pystr) (headers : gmap pystr pystr) (json : pyval)
    (timeout : Z) : IO response :=
  send {| req_method := PATCH; req_url := url; req_headers := headers;
          req_json := Some json; req_timeout := timeout |}.

Definition delete (url : pystr) (headers : gmap pystr pystr) (timeout : Z) : IO response :=
  send {| req_method := DELETE; req_url := url; req_headers := headers;
          req_json := None; req_timeout := timeout |}.

Definition http_error_msg (r : response) : pystr :=
  if (400 <=? status_code r) && (status_code r <? 500)
  then str_int (status_code r) ++ lit " Client Error: " ++ reason r
         ++ lit " for url: " ++ url r
  else if (500 <=? status_code r) && (status_code r <? 600)
  then str_int (status_code r) ++ lit " Server Error: " ++ reason r
         ++ lit " for url: " ++ url r
  else [].

(** [Response.raise_for_status()]: an [HTTPError] carrying the response
    for every status from 400 to 599. *)
Definition raise_for_status (r : response) : IO unit :=
  if bool_decide (http_error_msg r = []) then mret tt
  else raise (RequestException {| exc_text := http_error_msg r;
                                  exc_response := Some r |}).

(** [Response.json()]: the decoded value; a body that is not JSON raises
    the library's [JSONDecodeError], a [RequestException] without a
    response; a [ValueError] or [RecursionError] of the decoder is not
    caught by the library and is raised as it is. *)
Definition json (r : response) : IO pyval :=
  match json_body r with
  | inr v => mret v
  | inl (JSONDecodeError text) =>
      raise (RequestException {| exc_text := text; exc_response := None |})
  | inl (IntegerTooLong text) => raise (ValueError text)
  | inl (NestingTooDeep text) => raise (RecursionError text)
  end.

End requests.

(** ** Operations on Python values *)

(** [v[key]] for a string key. *)
Definition subscript (v : pyval) (key : pystr) : IO pyval :=
  match v with
  | VDict d => match d !! key with
               | Some x => mret x
               | None => raise (KeyError key)
               end
  | _ => raise TypeError
  end.

(** [v.get(key, fallback)]: only dictionaries have the method. *)
Definition dict_get (v : pyval) (key : pystr) (fallback : pyval) : IO pyval :=
  match v with
  | VDict d => mret (default fallback (d !! key))
  | _ => raise AttributeError
  end.

(** Truth value of an optional string: [None] and [""] are false. *)
Definition truthy (o : option pystr) : bool :=
  match o with
  | Some (_ :: _) => true
  | _ => false
  end.

(** [a or b] *)
Definition py_or (a b : option pystr) : option pystr :=
  if truthy a then a else b.

(** An optional string inside an f-string. *)
Definition str_opt (o : option pystr) : pystr :=
  match o with
  | Some s => s
  | None => lit "None"
  end.

(** [getattr(e.response, 'status_code', None) if hasattr(e, 'response') else None] *)
Definition status_of (e : request_exception) : option Z :=
  status_code <$> exc_response e.

(** ** The client *)

Record RepoClient := {
  token : option pystr;
  base_url : option pystr;
  headers : gmap pystr pystr;
  username : pyval
}.

Definition msg_token_required : pystr :=
  lit "GitHub token is required. Set GITHUB_TOKEN environment variable or pass token parameter.".

Definition msg_invalid_token : pystr :=
  lit "Invalid GitHub token. Please check your credentials.".

Definition msg_description : pystr := lit "Description must be a string.".

Section Client.

(** [from config import GITHUB_TOKEN, BASE_URL] *)
Variables GITHUB_TOKEN BASE_URL : option pystr.

(** [str()] of lists and dictionaries goes through [repr()] of their
    items, which consults the Unicode tables; it stays abstract. *)
Variable str_container : pyval → pystr.

(** A value inside an f-string. *)
Definition py_str (v : pyval) : pystr :=
  match v with
  | VNone => lit "None"
  | VBool true => lit "True"
  | VBool false => lit "False"
  | VInt z => str_int z
  | VStr s => s
  | VList _ | VDict _ => str_container v
  end.

Definition __init__ (token base_url : option pystr) : IO RepoClient :=
  let self_token := py_or token GITHUB_TOKEN in
  let self_base_url := py_or base_url BASE_URL in
  if negb (truthy self_token) then raise (ValidationError msg_token_required)
  else
    let self_headers : gmap pystr pystr :=
      <[lit "Accept" := lit "application/vnd.github.v3+json"]>
        (<[lit "Authorization" := lit "token " ++ str_opt self_token]> ∅) in
    try_except
      (user_response ← requests.get (str_opt self_base_url ++ lit "/user") self_headers 10;
       requests.raise_for_status user_response;;
       body ← requests.json user_response;
       login ← subscript body (lit "login");
       mret {| token := self_token; base_url := self_base_url;
               headers := self_headers; username := login |})
      (λ e,
         let status_code := status_of e in
         if bool_decide (status_code = Some 401)
         then raise (GitHubAPIError msg_invalid_token (Some 401))
         else raise (GitHubAPIError
                       (lit "Failed to authenticate with GitHub: " ++ exc_text e)
                       status_code)).

Definition create_repo (self : RepoClient) (repo_name : pystr)
    (description private : pyval) : IO response :=
  lift (_validate_repo_name repo_name);;
  if negb (isinstance_str description) then raise (ValidationError msg_description)
  else
    let url := str_opt (base_url self) ++ lit "/user/repos" in
    let payload : gmap pystr pyval :=
      <[lit "auto_init" := VBool false]>
        (<[lit "private" := private]>
           (<[lit "description" := description]>
              (<[lit "name" := VStr repo_name]> ∅))) in
    try_except
      (response ← requests.post url (headers self) (VDict payload) 10;
       requests.raise_for_status response;;
       mret response)
      (λ e,
         let status_code := status_of e in
         if bool_decide (status_code = Some 422)
         then
           match exc_response e with
           | Some r =>
               body ← requests.json r;
               error_msg ← dict_get body (lit "message") (VStr (lit "Validation failed"));
               raise (GitHubAPIError
                        (lit "Failed to create repository: " ++ py_str error_msg)
                        (Some 422))
           | None => raise AttributeError
           end
         else raise (GitHubAPIError
                       (lit "Failed to create repository: " ++ exc_text e)
                       status_code)).

Definition repo_url (self : RepoClient) (repo_name : pystr) : pystr :=
  str_opt (base_url self) ++ lit "/repos/" ++ py_str (username self)
    ++ lit "/" ++ repo_name.

Definition get_repo (self : RepoClient) (repo_name : pystr) : IO response :=
  lift (_validate_repo_name repo_name);;
  let url := repo_url self repo_name in
  try_except
    (response ← requests.get url (headers self) 10;
     requests.raise_for_status response;;
     mret response)
    (λ e,
       let status_code := status_of e in
       raise (GitHubAPIError
                (lit "Failed to get repository '" ++ repo_name ++ lit "': " ++ exc_text e)
                status_code)).

Definition update_repo (self : RepoClient) (repo_name : pystr)
    (new_description : pyval) : IO response :=
  lift (_validate_repo_name repo_name);;
  if negb (isinstance_str new_description) then raise (ValidationError msg_description)
  else
    let url := repo_url self repo_name in
    let payload : gmap pystr pyval := <[lit "description" := new_description]> ∅ in
    try_except
      (response ← requests.patch url (headers self) (VDict payload) 10;
       requests.raise_for_status response;;
       mret response)
      (λ e,
         let status_code := status_of e in
         raise (GitHubAPIError
                  (lit "Failed to update repository '" ++ repo_name ++ lit "': "
                     ++ exc_text e)
                  status_code)).

Definition delete_repo (self : RepoClient) (repo_name : pystr) : IO response :=
  lift (_validate_repo_name repo_name);;
  let url := repo_url self repo_name in
  try_except
    (response ← requests.delete url (headers self) 10;
     requests.raise_for_status response;;
     mret response)
    (λ e,
       let status_code := status_of e in
       raise (GitHubAPIError
                (lit "Failed to delete repository '" ++ repo_name ++ lit "': "
                   ++ exc_text e)
                status_code)).

End Client.

(** ** Test support of [tests/test_github_client.py] *)

Definition TEST_REPO_PREFIX : pystr := lit "test-repo-".

(** [string.ascii_lowercase] and [string.digits] *)
Definition ascii_lowercase : pystr := lit "abcdefghijklmnopqrstuvwxyz".
Definition digits : pystr := lit "0123456789".

Module random.

(** [random.choices(population, k=k)]: [k] draws with replacement. The
    generator is an oracle: draw number [i] lands on position [rnd i],
    brought into range. An empty population raises [IndexError]. *)
Definition choices (population : pystr) (k : nat) (rnd : nat → nat) : result pystr :=
  if bool_decide (population = []) then inl IndexError
  else inr ((λ i, population !!! (rnd i mod length population)%nat) <$> seq 0 k).

End random.

Definition generate_test_repo_name (prefix : pystr) (rnd : nat → nat) : result pystr :=
  random_suffix ← random.choices (ascii_lowercase ++ digits) 8 rnd;
  mret (prefix ++ random_suffix).

(** [try: body except GitHubAPIError: pass] *)
Definition except_api_error_pass {A} (body : IO A) : IO unit :=
  λ net log,
    match body net log with
    | (inr _, log') => (inr (), log')
    | (inl (GitHubAPIError _ _), log') => (inr (), log')
    | (inl e, log') => (inl e, log')
    end.

Section Fixtures.

Variables GITHUB_TOKEN BASE_URL : option pystr.
Variable str_container : pyval → pystr.

(** [TestRepoClientIntegration.setup_class], returning the class
    attributes [client] and [test_repo]. *)
Definition setup_class (rnd : nat → nat) : IO (RepoClient * pystr) :=
  client ← __init__ GITHUB_TOKEN BASE_URL None None;
  test_repo ← lift (generate_test_repo_name TEST_REPO_PREFIX rnd);
  create_repo str_container client test_repo
    (VStr (lit "Test repository for integration tests")) (VBool false);;
  mret (client, test_repo).

(** [TestRepoClientIntegration.teardown_class] *)
Definition teardown_class (client : RepoClient) (test_repo : pystr) : IO unit :=
  except_api_error_pass (delete_repo str_container client test_repo).

End Fixtures.

(** ** Vocabulary of the specification *)

(** The three operations on an existing repository, to state what they
    share. *)
Inductive operation := Get | Update (new_description : pystr) | Delete.

Definition perform (str_container : pyval → pystr) (self : RepoClient)
    (op : operation) (repo_name : pystr) : IO response :=
  match op with
  | Get => get_repo str_container self repo_name
  | Update d => update_repo str_container self repo_name (VStr d)
  | Delete => delete_repo str_container self repo_name
  end.

Definition verb (op : operation) : pystr :=
  match op with
  | Get => lit "get"
  | Update _ => lit "update"
  | Delete => lit "delete"
  end.

Definition http_method (op : operation) : method :=
  match op with
  | Get => GET
  | Update _ => PATCH
  | Delete => DELETE
  end.

Definition body_of (op : operation) : option pyval :=
  match op with
  | Update d => Some (VDict {[ lit "description" := VStr d ]})
  | _ => None
  end.

(** The characters of a generated suffix. *)
Definition lower_or_digit (c : char) : Prop := (97 ≤ c ≤ 122 ∨ 48 ≤ c ≤ 57)%N.

(** The character set [A-Za-z0-9_.-], stated on code points. *)
Definition name_char (c : char) : Prop :=
  (65 ≤ c ≤ 90 ∨ 97 ≤ c ≤ 122 ∨ 48 ≤ c ≤ 57 ∨ c = 95 ∨ c = 46 ∨ c = 45)%N.

(** The four rules, in the order the specification lists them. *)
Inductive rule := NotEmpty | MaxLength | Charset | Boundary.

Definition message (r : rule) (s : pystr) : pystr :=
  match r with
  | NotEmpty => msg_empty
  | MaxLength => msg_too_long (len s)
  | Charset => msg_chars
  | Boundary => msg_boundary
  end.

#[global] Instance name_char_dec c : Decision (name_char c).
Proof. unfold name_char. apply _. Defined.

(** Whether a name breaks a rule, each rule read on its own and as the
    specification words it: the name is empty; its length exceeds 100; it
    contains a character outside [A-Za-z0-9_.-]; its first character is
    '-' or its last character is '.'. *)
Definition violates (r : rule) (s : pystr) : bool :=
  match r with
  | NotEmpty => bool_decide (s = [])
  | MaxLength => bool_decide (len s > 100)
  | Charset => bool_decide (Exists (λ c, ¬ name_char c) s)
  | Boundary => bool_decide (head s = Some dash ∨ last s = Some dot)
  end.

(** The earliest broken rule, if any. *)
Definition first_violation (s : pystr) : option rule :=
  find (λ r, violates r s) [NotEmpty; MaxLength; Charset; Boundary].

(** The validator's own four tests, each taken on its own; the third is
    its pattern match. A device of the proofs: it follows the code, not
    the rules. *)
Definition check_fails (r : rule) (s : pystr) : bool :=
  match r with
  | NotEmpty => bool_decide (s = [])
  | MaxLength => bool_decide (len s > MAX_REPO_NAME_LENGTH)
  | Charset => negb (re.match_ REPO_NAME_PATTERN s)
  | Boundary => bool_decide (head s = Some dash ∨ last s = Some dot)
  end.

(** The first of the validator's tests to fire, if any. *)
Definition first_failed_check (s : pystr) : option rule :=
  find (λ r, check_fails r s) [NotEmpty; MaxLength; Charset; Boundary].

(** The errors the client defines itself. *)
Definition own_error (e : exn) : Prop :=
  match e with
  | ValidationError _ | GitHubAPIError _ _ => True
  | _ => False
  end.

(** Unfolds one layer of the request monad. *)
Ltac io_unfold :=
  unfold run, try_except, lift, raise, requests.get, requests.post,
    requests.patch, requests.delete, requests.raise_for_status,
    requests.json, subscript, dict_get, send,
    mbind, mret, IO_bind, IO_ret in *.

(** * Properties *)

(** ** The pattern *)

Lemma in_class_name_char c : re.in_class name_class c = true ↔ name_char c.
Proof.
  unfold re.in_class, name_class, name_char; simpl.
  rewrite !orb_true_iff, !andb_true_iff, !N.leb_le. lia.
Qed.

Lemma newline_not_name_char : ¬ name_char newline.
Proof. unfold name_char, newline. lia. Qed.

Lemma at_eol_spec s : re.at_eol s = true ↔ s = [] ∨ s = [newline].
Proof.
  destruct s as [|c [|d s]]; simpl.
  - split; auto.
  - rewrite N.eqb_eq. split; [intros ->; by right|by intros [?|[= ->]]].
  - split; [done|by intros [?|?]].
Qed.

Lemma match_pattern_nil : re.match_ REPO_NAME_PATTERN [] = false.
Proof. reflexivity. Qed.

Lemma match_pattern_cons x s :
  re.match_ REPO_NAME_PATTERN (x :: s)
  = re.in_class name_class x && (re.match_ REPO_NAME_PATTERN s || re.at_eol s).
Proof.
  unfold re.match_, REPO_NAME_PATTERN; simpl.
  by rewrite andb_true_r.
Qed.

(** A run of name characters over the whole string matches. *)
Lemma match_pattern_run s :
  s ≠ [] → Forall name_char s → re.match_ REPO_NAME_PATTERN s = true.
Proof.
  induction s as [|x s IH]; [done|].
  intros _ Hall. apply Forall_cons in Hall as [Hx Hs].
  rewrite match_pattern_cons. apply andb_true_iff. split.
  - by apply in_class_name_char.
  - destruct s as [|y s]; [done|]. rewrite IH; done.
Qed.

(** What the pattern really accepts: a non-empty run of name characters,
    optionally followed by one final newline. *)
Lemma match_pattern_spec s :
  re.match_ REPO_NAME_PATTERN s = true ↔
  ∃ p t, s = p ++ t ∧ p ≠ [] ∧ Forall name_char p ∧ (t = [] ∨ t = [newline]).
Proof.
  split.
  - induction s as [|x s IH]; [done|].
    rewrite match_pattern_cons, andb_true_iff, orb_true_iff.
    intros [Hx [Hs|Hs]].
    + destruct (IH Hs) as (p & t & -> & _ & Hp & Ht).
      exists (x :: p), t. split_and!; [done|done| |done].
      constructor; [by apply in_class_name_char|done].
    + exists [x], s. split_and!; [done|done| |by apply at_eol_spec].
      constructor; [by apply in_class_name_char|done].
  - intros (p & t & -> & Hne & Hp & Ht).
    induction Hp as [|x p Hx Hp IH]; [done|]. simpl.
    rewrite match_pattern_cons, andb_true_iff, orb_true_iff. split.
    + by apply in_class_name_char.
    + destruct p as [|y p].
      * right. by apply at_eol_spec.
      * left. by apply IH.
Qed.

(** ** Indexing *)

Lemma len_nonneg s : 0 ≤ len s.
Proof. unfold len. lia. Qed.

Lemma len_cons x s : len (x :: s) = 1 + len s.
Proof. unfold len. simpl. lia. Qed.

Lemma getitem_first s : getitem s 0 = from_option inr (inl IndexError) (head s).
Proof.
  unfold getitem. destruct s as [|x s]; [done|].
  rewrite len_cons. simpl.
  pose proof (len_nonneg s).
  by destruct (Z.leb_spec (1 + len s) 0); [lia|].
Qed.

Lemma getitem_last s : getitem s (-1) = from_option inr (inl IndexError) (last s).
Proof.
  unfold getitem. simpl (_ <? _). cbv iota.
  destruct s as [|x s] using rev_ind; [done|].
  rewrite last_snoc. unfold len. rewrite length_app. simpl.
  replace (-1 + Z.of_nat (length s + 1)) with (Z.of_nat (length s)) by lia.
  destruct (Z.ltb_spec (Z.of_nat (length s)) 0); [lia|].
  destruct (Z.leb_spec (Z.of_nat (length s + 1)) (Z.of_nat (length s))); [lia|].
  simpl. rewrite Nat2Z.id.
  by rewrite lookup_app_r, Nat.sub_diag by lia.
Qed.

(** Both ends of a non-empty string can be read. *)
Lemma getitem_ends s :
  s ≠ [] → ∃ a b, head s = Some a ∧ last s = Some b
                  ∧ getitem s 0 = inr a ∧ getitem s (-1) = inr b.
Proof.
  intros Hs. rewrite getitem_first, getitem_last.
  destruct (head s) as [a|] eqn:Ha; [|by destruct s].
  destruct (last s) as [b|] eqn:Hb; [|by apply last_None in Hb].
  by exists a, b.
Qed.

(** ** Name validation *)

Lemma validate_first_failed_check s :
  _validate_repo_name s =
    match first_failed_check s with
    | Some r => inl (ValidationError (message r s))
    | None => inr ()
    end.
Proof.
  unfold _validate_repo_name, first_failed_check; simpl.
  case_bool_decide as Hnil; [done|].
  unfold MAX_REPO_NAME_LENGTH.
  destruct (Z.ltb_spec 100 (len s)) as [Hlen|Hlen];
    (case_bool_decide; [|try lia]); try lia; [done|].
  destruct (re.match_ REPO_NAME_PATTERN s); [simpl|done].
  destruct (getitem_ends s Hnil) as (a & b & Ha & Hb & -> & ->). simpl.
  rewrite Ha, Hb.
  destruct (N.eqb_spec a dash) as [->|Hna].
  { rewrite bool_decide_true; [done|by left]. }
  destruct (N.eqb_spec b dot) as [->|Hnb].
  { rewrite bool_decide_true; [done|by right]. }
  rewrite bool_decide_false; [done|]. intros [[=]|[=]]; done.
Qed.

(** Validation fails in one way only. *)
Lemma validate_error_kind s e :
  _validate_repo_name s = inl e → ∃ msg, e = ValidationError msg.
Proof.
  rewrite validate_first_failed_check.
  destruct (first_failed_check s); [|done]. intros [= <-]. eauto.
Qed.

(** C1: every name of 1 to 100 characters drawn from [A-Za-z0-9_.-] that
    does not start with '-' and does not end with '.' passes validation:
    the call returns normally. *)
Theorem validate_accepts_well_formed (s : pystr) :
  1 ≤ len s ≤ 100 →
  Forall name_char s →
  head s ≠ Some dash →
  last s ≠ Some dot →
  _validate_repo_name s = inr ().
Proof.
  intros Hlen Hchars Hfirst Hlast.
  assert (s ≠ []) as Hnil by (intros ->; unfold len in Hlen; simpl in Hlen; lia).
  rewrite validate_first_failed_check. unfold first_failed_check; simpl.
  rewrite bool_decide_false by done.
  rewrite bool_decide_false by (unfold MAX_REPO_NAME_LENGTH; lia).
  rewrite match_pattern_run by done. simpl.
  rewrite bool_decide_false; [done|]. by intros [?|?].
Qed.

Lemma validate_accepts_well_formed_witness :
  _validate_repo_name (lit "test-repo_1.x") = inr ().
Proof.
  apply validate_accepts_well_formed.
  - vm_compute. split; discriminate.
  - let l := eval vm_compute in (lit "test-repo_1.x") in
    change (lit "test-repo_1.x") with l.
    repeat (apply Forall_cons; split; [unfold name_char; lia|]).
    apply Forall_nil_2.
  - vm_compute. discriminate.
  - vm_compute. discriminate.
Defined.

(** The sample names of the specification and of the test suite. *)
Example validate_samples :
  _validate_repo_name [] = inl (ValidationError msg_empty)
  ∧ _validate_repo_name (replicate 101 97%N)
    = inl (ValidationError
             (lit "Repository name cannot exceed 100 characters. Got 101 characters."))
  ∧ _validate_repo_name (lit "invalid/name") = inl (ValidationError msg_chars)
  ∧ _validate_repo_name (lit "has space") = inl (ValidationError msg_chars)
  ∧ _validate_repo_name (lit "-startswithdash") = inl (ValidationError msg_boundary)
  ∧ _validate_repo_name (lit "endswithdot.") = inl (ValidationError msg_boundary)
  ∧ _validate_repo_name (lit ".start-with-dot") = inr ().
Proof. split_and!; reflexivity. Qed.

(** C2, at the input that breaks it: a name ending in a newline holds a
    character outside [A-Za-z0-9_.-], is non-empty and short enough, and
    still passes validation, because [$] also matches just before a final
    newline. *)
Theorem validate_accepts_trailing_newline :
  let s := lit "repo" ++ [newline] in
  s ≠ [] ∧ len s ≤ 100 ∧ Exists (λ c, ¬ name_char c) s
  ∧ _validate_repo_name s = inr ().
Proof.
  split_and!.
  - done.
  - vm_compute. discriminate.
  - apply Exists_exists. exists newline. split.
    + apply list_elem_of_In. vm_compute. tauto.
    + apply newline_not_name_char.
  - reflexivity.
Qed.

(** X2, what does hold next to C2: outside that one case, a character from
    outside the set makes validation fail with the character set message. *)
Lemma validate_rejects_foreign_char s :
  s ≠ [] → len s ≤ 100 →
  ¬ Forall name_char s →
  (∀ p, s = p ++ [newline] → ¬ Forall name_char p) →
  _validate_repo_name s = inl (ValidationError msg_chars).
Proof.
  intros Hnil Hlen Hbad Hnl.
  rewrite validate_first_failed_check. unfold first_failed_check; simpl.
  rewrite bool_decide_false by done.
  rewrite bool_decide_false by (unfold MAX_REPO_NAME_LENGTH; lia).
  destruct (re.match_ REPO_NAME_PATTERN s) eqn:Hm; [|done].
  apply match_pattern_spec in Hm as (p & t & -> & _ & Hp & [->| ->]).
  - by rewrite app_nil_r in Hbad.
  - by destruct (Hnl p).
Qed.

(** Outside names made of a run of name characters and one final newline,
    the validator's pattern match and the character set rule agree. *)
Lemma charset_check_agrees s :
  s ≠ [] →
  (∀ p, p ≠ [] → Forall name_char p → s ≠ p ++ [newline]) →
  check_fails Charset s = violates Charset s.
Proof.
  intros Hnil Hnl. simpl.
  destruct (re.match_ REPO_NAME_PATTERN s) eqn:Hm; simpl; symmetry.
  - apply bool_decide_eq_false. intros Hex.
    apply match_pattern_spec in Hm as (p & t & -> & Hp & Hall & [->| ->]).
    + rewrite app_nil_r in Hex. by apply Exists_not_Forall in Hex.
    + by apply (Hnl p).
  - apply bool_decide_eq_true. apply not_Forall_Exists; [apply _|].
    intros Hall. by rewrite match_pattern_run in Hm.
Qed.

(** C3, at the input that breaks it: "-repo" followed by a newline breaks
    the character set rule and the boundary rule; the earliest rule it
    breaks is the character set rule, yet the validator raises the
    boundary error, because its pattern match lets the final newline
    through. *)
Theorem validate_order_final_newline :
  let s := lit "-repo" ++ [newline] in
  violates Charset s = true
  ∧ violates Boundary s = true
  ∧ first_violation s = Some Charset
  ∧ _validate_repo_name s = inl (ValidationError (message Boundary s))
  ∧ message Boundary s ≠ message Charset s.
Proof. split_and!; [by vm_compute..|]. vm_compute. discriminate. Qed.

(** ** Construction *)

Lemma truthy_false o : truthy o = false ↔ o = None ∨ o = Some [].
Proof. destruct o as [[|c s]|]; simpl; split; try done; auto; by intros [?|?]. Qed.

(** [raise_for_status] raises for exactly the statuses 400 to 599. *)
Lemma http_error_msg_nil r :
  requests.http_error_msg r = [] ↔ ¬ (400 ≤ status_code r < 600).
Proof.
  unfold requests.http_error_msg.
  assert (∀ a b c : pystr, a ++ lit " Client Error: " ++ b ++ c ≠ []) as Hc.
  { intros a b c H%(f_equal length). rewrite !length_app in H. simpl in H. lia. }
  assert (∀ a b c : pystr, a ++ lit " Server Error: " ++ b ++ c ≠ []) as Hs.
  { intros a b c H%(f_equal length). rewrite !length_app in H. simpl in H. lia. }
  destruct (Z.leb_spec 400 (status_code r)), (Z.ltb_spec (status_code r) 500),
    (Z.leb_spec 500 (status_code r)), (Z.ltb_spec (status_code r) 600);
    simpl; split; intros Hmsg; try done; try lia;
    try (by apply Hc in Hmsg); try (by apply Hs in Hmsg).
Qed.

(** C4: without an explicit token (none, or the empty string) and without a
    configured one, construction raises [ValidationError] and the log of
    issued requests is left as it was: nothing is sent. *)
Theorem init_without_token (GITHUB_TOKEN BASE_URL token base_url : option pystr)
    (net : remote) (log : list request) :
  token = None ∨ token = Some [] →
  GITHUB_TOKEN = None ∨ GITHUB_TOKEN = Some [] →
  __init__ GITHUB_TOKEN BASE_URL token base_url net log
  = (inl (ValidationError msg_token_required), log).
Proof.
  intros Htok%truthy_false Hcfg%truthy_false.
  unfold __init__, py_or. rewrite Htok, Hcfg. reflexivity.
Qed.

Lemma init_without_token_witness :
  run (__init__ None (Some (lit "https://api.github.com")) (Some []) None)
      (λ _, Raised {| exc_text := lit "unreachable"; exc_response := None |})
  = (inl (ValidationError msg_token_required), []).
Proof.
  unfold run. apply init_without_token; [by right|by left].
Defined.

(** C5: when the identity endpoint answers the authentication probe with
    status 401, construction raises [GitHubAPIError] with status code 401
    and the invalid-credentials message. *)
Theorem init_unauthorized (GITHUB_TOKEN BASE_URL token base_url : option pystr)
    (net : remote) (log : list request) (r : response) :
  truthy (py_or token GITHUB_TOKEN) = true →
  (∀ q, req_method q = GET →
        req_url q = str_opt (py_or base_url BASE_URL) ++ lit "/user" →
        net q = Responded r) →
  status_code r = 401 →
  fst (__init__ GITHUB_TOKEN BASE_URL token base_url net log)
  = inl (GitHubAPIError msg_invalid_token (Some 401)).
Proof.
  intros Htok Hnet Hr.
  unfold __init__. rewrite Htok. simpl. io_unfold. simpl.
  rewrite Hnet by done.
  rewrite bool_decide_false by (rewrite http_error_msg_nil; lia).
  unfold status_of. simpl. by rewrite Hr.
Qed.

Lemma init_unauthorized_witness :
  fst (run (__init__ None (Some (lit "https://api.github.com"))
                     (Some (lit "invalid-token-123")) None)
           (λ _, Responded {| status_code := 401; reason := lit "Unauthorized";
                              url := lit "https://api.github.com/user";
                              json_body := inr (VDict ∅) |}))
  = inl (GitHubAPIError msg_invalid_token (Some 401)).
Proof.
  unfold run. eapply init_unauthorized; [reflexivity|by intros|reflexivity].
Defined.

(** The request sent by the constructor once a token is resolved. *)
Lemma init_probe (GITHUB_TOKEN BASE_URL token base_url : option pystr)
    (net : remote) (log : list request) :
  truthy (py_or token GITHUB_TOKEN) = true →
  ∃ q, snd (__init__ GITHUB_TOKEN BASE_URL token base_url net log) = log ++ [q]
       ∧ req_method q = GET
       ∧ req_url q = str_opt (py_or base_url BASE_URL) ++ lit "/user"
       ∧ req_headers q !! lit "Authorization"
         = Some (lit "token " ++ str_opt (py_or token GITHUB_TOKEN))
       ∧ req_timeout q = 10.
Proof.
  intros Htok. unfold __init__. rewrite Htok. simpl. io_unfold. simpl.
  match goal with |- context [net ?q0] => exists q0 end.
  split_and!; [|done|done| |done].
  - destruct (net _) as [r|e]; simpl; [|by repeat case_bool_decide].
    case_bool_decide; simpl; [|by repeat case_bool_decide].
    destruct (json_body r) as [[]|[]]; simpl; try done;
      try (by repeat case_bool_decide).
    by destruct (_ !! _).
  - simpl. rewrite lookup_insert_ne by done. apply lookup_insert_eq.
Qed.

(** A constructed client holds the resolved token and base URL. *)
Lemma init_fields (GITHUB_TOKEN BASE_URL tok burl : option pystr)
    (net : remote) (log : list request) (c : RepoClient) :
  fst (__init__ GITHUB_TOKEN BASE_URL tok burl net log) = inr c →
  token c = py_or tok GITHUB_TOKEN
  ∧ base_url c = py_or burl BASE_URL
  ∧ headers c !! lit "Authorization"
    = Some (lit "token " ++ str_opt (py_or tok GITHUB_TOKEN)).
Proof.
  unfold __init__.
  destruct (truthy (py_or tok GITHUB_TOKEN)); simpl; [|done].
  io_unfold. simpl.
  destruct (net _) as [r|e]; simpl; [|by repeat case_bool_decide].
  case_bool_decide; simpl; [|by repeat case_bool_decide].
  destruct (json_body r) as [[]|[]]; simpl; try done;
    try (by repeat case_bool_decide).
  destruct (_ !! _); simpl; [|done].
  intros [= <-]. simpl. split_and!; [done|done|].
  rewrite lookup_insert_ne by done. apply lookup_insert_eq.
Qed.

(** With a token resolved, construction never fails on validation. *)
Lemma init_no_validation_error (GITHUB_TOKEN BASE_URL token base_url : option pystr)
    (net : remote) (log : list request) (msg : pystr) :
  truthy (py_or token GITHUB_TOKEN) = true →
  fst (__init__ GITHUB_TOKEN BASE_URL token base_url net log)
  ≠ inl (ValidationError msg).
Proof.
  intros Htok. unfold __init__. rewrite Htok. simpl. io_unfold. simpl.
  destruct (net _) as [r|e]; simpl; [|by repeat case_bool_decide].
  case_bool_decide; simpl; [|by repeat case_bool_decide].
  destruct (json_body r) as [[]|[]]; simpl; try done;
    try (by repeat case_bool_decide).
  by destruct (_ !! _).
Qed.

(** Construction succeeds when the probe is answered outside the error
    statuses with a JSON object that has a [login]. *)
Lemma init_success (GITHUB_TOKEN BASE_URL token base_url : option pystr)
    (net : remote) (log : list request) (r : response)
    (d : gmap pystr pyval) (u : pyval) :
  truthy (py_or token GITHUB_TOKEN) = true →
  (∀ q, req_method q = GET →
        req_url q = str_opt (py_or base_url BASE_URL) ++ lit "/user" →
        net q = Responded r) →
  ¬ (400 ≤ status_code r < 600) →
  json_body r = inr (VDict d) →
  d !! lit "login" = Some u →
  ∃ c, fst (__init__ GITHUB_TOKEN BASE_URL token base_url net log) = inr c
       ∧ username c = u.
Proof.
  intros Htok Hnet Hok Hbody Hlogin.
  unfold __init__. rewrite Htok. simpl. io_unfold. simpl.
  rewrite Hnet by done.
  rewrite bool_decide_true by (by apply http_error_msg_nil).
  simpl. rewrite Hbody. simpl. rewrite Hlogin. simpl. eauto.
Qed.

(** C10: an empty string passed as the token, with a non-empty configured
    token, behaves as if no token had been passed: no validation error, the
    probe carries the configured token, the constructed client holds it, and
    construction goes through whenever the remote accepts that token. The
    same holds for an empty base URL and the configured base URL. In
    general an explicit argument is the one in effect only when it is
    non-empty. *)
Theorem init_empty_argument_uses_default (GITHUB_TOKEN BASE_URL : option pystr) :
  (truthy GITHUB_TOKEN = true → ∀ burl net log,
     __init__ GITHUB_TOKEN BASE_URL (Some []) burl net log
     = __init__ GITHUB_TOKEN BASE_URL None burl net log
     ∧ (∀ msg, fst (__init__ GITHUB_TOKEN BASE_URL (Some []) burl net log)
               ≠ inl (ValidationError msg))
     ∧ (∃ q, snd (__init__ GITHUB_TOKEN BASE_URL (Some []) burl net log) = log ++ [q]
             ∧ req_headers q !! lit "Authorization"
               = Some (lit "token " ++ str_opt GITHUB_TOKEN))
     ∧ (∀ r d u,
          (∀ q, net q = Responded r) → ¬ (400 ≤ status_code r < 600) →
          json_body r = inr (VDict d) → d !! lit "login" = Some u →
          ∃ c, fst (__init__ GITHUB_TOKEN BASE_URL (Some []) burl net log) = inr c
               ∧ token c = GITHUB_TOKEN))
  ∧ (truthy BASE_URL = true → ∀ tok net log,
     __init__ GITHUB_TOKEN BASE_URL tok (Some []) net log
     = __init__ GITHUB_TOKEN BASE_URL tok None net log
     ∧ (truthy (py_or tok GITHUB_TOKEN) = true →
        ∃ q, snd (__init__ GITHUB_TOKEN BASE_URL tok (Some []) net log) = log ++ [q]
             ∧ req_url q = str_opt BASE_URL ++ lit "/user")
     ∧ (∀ r d u,
          truthy (py_or tok GITHUB_TOKEN) = true →
          (∀ q, net q = Responded r) → ¬ (400 ≤ status_code r < 600) →
          json_body r = inr (VDict d) → d !! lit "login" = Some u →
          ∃ c, fst (__init__ GITHUB_TOKEN BASE_URL tok (Some []) net log) = inr c
               ∧ base_url c = BASE_URL))
  ∧ (∀ tok burl net log c,
     fst (__init__ GITHUB_TOKEN BASE_URL tok burl net log) = inr c →
     token c = (if truthy tok then tok else GITHUB_TOKEN)
     ∧ base_url c = (if truthy burl then burl else BASE_URL)).
Proof.
  split_and!.
  - intros Hcfg burl net log.
    assert (py_or (Some []) GITHUB_TOKEN = GITHUB_TOKEN) as Hor by done.
    split_and!.
    + done.
    + intros msg. apply init_no_validation_error. by rewrite Hor.
    + destruct (init_probe GITHUB_TOKEN BASE_URL (Some []) burl net log)
        as (q & Hlog & _ & _ & Hauth & _); [by rewrite Hor|].
      exists q. by rewrite Hor in Hauth.
    + intros r d u Hnet Hok Hbody Hlogin.
      destruct (init_success GITHUB_TOKEN BASE_URL (Some []) burl net log r d u)
        as (c & Hc & _); [by rewrite Hor|by intros|done..|].
      exists c. split; [done|].
      by apply init_fields in Hc as (-> & _ & _).
  - intros Hcfg tok net log.
    assert (py_or (Some []) BASE_URL = BASE_URL) as Hor by done.
    split_and!.
    + done.
    + intros Htok.
      destruct (init_probe GITHUB_TOKEN BASE_URL tok (Some []) net log Htok)
        as (q & Hlog & _ & Hurl & _).
      exists q. by rewrite Hor in Hurl.
    + intros r d u Htok Hnet Hok Hbody Hlogin.
      destruct (init_success GITHUB_TOKEN BASE_URL tok (Some []) net log r d u)
        as (c & Hc & _); [done|by intros|done..|].
      exists c. split; [done|].
      by apply init_fields in Hc as (_ & -> & _).
  - intros tok burl net log c Hc.
    by apply init_fields in Hc as (-> & -> & _).
Qed.

Lemma init_empty_argument_uses_default_witness :
  let G := Some (lit "configured-token") in
  let B := Some (lit "https://api.github.com") in
  let net : remote :=
    λ _, Responded {| status_code := 200; reason := lit "OK";
                      url := lit "https://api.github.com/user";
                      json_body := inr (VDict {[ lit "login" := VStr (lit "octocat") ]}) |} in
  run (__init__ G B (Some []) None) net = run (__init__ G B None None) net
  ∧ run (__init__ G B None (Some [])) net = run (__init__ G B None None) net
  ∧ ∃ c, fst (run (__init__ G B (Some []) (Some [])) net) = inr c
         ∧ token c = G ∧ base_url c = B.
Proof.
  intros G B net.
  destruct (init_empty_argument_uses_default G B) as (Htok & Hurl & Hboth).
  split_and!.
  - apply (Htok eq_refl None net []).
  - apply (Hurl eq_refl None net []).
  - eexists. split; [reflexivity|].
    apply (Hboth (Some []) (Some []) net []). reflexivity.
Defined.

(** ** The four operations *)

(** The shared shape of every operation: send one request, raise for an
    error status, hand any [requests] failure to the handler. *)
Lemma try_send {A} (q : request) (k : response → IO A)
    (handler : request_exception → IO A) (net : remote) (log : list request) :
  try_except (response ← send q; requests.raise_for_status response;; k response)
             handler net log
  = match net q with
    | Responded r =>
        if bool_decide (requests.http_error_msg r = [])
        then match k r net (log ++ [q]) with
             | (inl (RequestException e), log') => handler e net log'
             | other => other
             end
        else handler {| exc_text := requests.http_error_msg r;
                        exc_response := Some r |} net (log ++ [q])
    | Raised e => handler e net (log ++ [q])
    end.
Proof.
  io_unfold. destruct (net q) as [r|e]; simpl; [|done].
  by case_bool_decide.
Qed.

(** A failed name validation ends each operation on the spot. *)
Lemma invalid_name_stops (str_container : pyval → pystr) (self : RepoClient)
    (repo_name : pystr) (description private new_description : pyval)
    (net : remote) (log : list request) (e : exn) :
  _validate_repo_name repo_name = inl e →
  create_repo str_container self repo_name description private net log = (inl e, log)
  ∧ get_repo str_container self repo_name net log = (inl e, log)
  ∧ update_repo str_container self repo_name new_description net log = (inl e, log)
  ∧ delete_repo str_container self repo_name net log = (inl e, log).
Proof.
  intros He.
  unfold create_repo, get_repo, update_repo, delete_repo, lift, mbind, IO_bind.
  by rewrite He.
Qed.

(** Reading, updating and deleting fail with the client's own errors only,
    whatever the remote does. *)
Lemma get_repo_own_errors (str_container : pyval → pystr) (self : RepoClient)
    (repo_name : pystr) (net : remote) (log : list request) (e : exn) :
  fst (get_repo str_container self repo_name net log) = inl e → own_error e.
Proof.
  unfold get_repo, lift, mbind at 1, IO_bind at 1.
  destruct (_validate_repo_name repo_name) as [e'|[]] eqn:Hv; simpl.
  { intros [= <-]. by apply validate_error_kind in Hv as [? ->]. }
  unfold requests.get. rewrite try_send.
  destruct (net _) as [r|x]; [case_bool_decide|]; simpl; by intros [= <-].
Qed.

Lemma update_repo_own_errors (str_container : pyval → pystr) (self : RepoClient)
    (repo_name : pystr) (new_description : pyval)
    (net : remote) (log : list request) (e : exn) :
  fst (update_repo str_container self repo_name new_description net log) = inl e →
  own_error e.
Proof.
  unfold update_repo, lift, mbind at 1, IO_bind at 1.
  destruct (_validate_repo_name repo_name) as [e'|[]] eqn:Hv; simpl.
  { intros [= <-]. by apply validate_error_kind in Hv as [? ->]. }
  destruct (isinstance_str new_description); simpl; [|by intros [= <-]].
  unfold requests.patch. rewrite try_send.
  destruct (net _) as [r|x]; [case_bool_decide|]; simpl; by intros [= <-].
Qed.

Lemma delete_repo_own_errors (str_container : pyval → pystr) (self : RepoClient)
    (repo_name : pystr) (net : remote) (log : list request) (e : exn) :
  fst (delete_repo str_container self repo_name net log) = inl e → own_error e.
Proof.
  unfold delete_repo, lift, mbind at 1, IO_bind at 1.
  destruct (_validate_repo_name repo_name) as [e'|[]] eqn:Hv; simpl.
  { intros [= <-]. by apply validate_error_kind in Hv as [? ->]. }
  unfold requests.delete. rewrite try_send.
  destruct (net _) as [r|x]; [case_bool_decide|]; simpl; by intros [= <-].
Qed.

(** A validation error means that nothing was sent. *)
Lemma create_repo_validation_error (str_container : pyval → pystr)
    (self : RepoClient) (repo_name : pystr) (description private : pyval)
    (net : remote) (log log' : list request) (msg : pystr) :
  create_repo str_container self repo_name description private net log
    = (inl (ValidationError msg), log') →
  log' = log.
Proof.
  unfold create_repo, lift, mbind at 1, IO_bind at 1.
  destruct (_validate_repo_name repo_name) as [e'|[]] eqn:Hv; simpl.
  { by intros [= _ ->]. }
  destruct (isinstance_str description); simpl; [|by intros [= _ ->]].
  unfold requests.post. rewrite try_send.
  destruct (net _) as [r|x]; [case_bool_decide|]; simpl; try done.
  - case_bool_decide; [|done]. unfold status_of; simpl. io_unfold.
    by destruct (json_body r) as [[]|[]].
  - case_bool_decide; [|done]. io_unfold.
    destruct (exc_response x) as [r|]; [|done].
    by destruct (json_body r) as [[]|[]].
Qed.

Lemma get_repo_validation_error (str_container : pyval → pystr)
    (self : RepoClient) (repo_name : pystr)
    (net : remote) (log log' : list request) (msg : pystr) :
  get_repo str_container self repo_name net log = (inl (ValidationError msg), log') →
  log' = log.
Proof.
  unfold get_repo, lift, mbind at 1, IO_bind at 1.
  destruct (_validate_repo_name repo_name) as [e'|[]] eqn:Hv; simpl.
  { by intros [= _ ->]. }
  unfold requests.get. rewrite try_send.
  by destruct (net _) as [r|x]; [case_bool_decide|]; simpl.
Qed.

Lemma update_repo_validation_error (str_container : pyval → pystr)
    (self : RepoClient) (repo_name : pystr) (new_description : pyval)
    (net : remote) (log log' : list request) (msg : pystr) :
  update_repo str_container self repo_name new_description net log
    = (inl (ValidationError msg), log') →
  log' = log.
Proof.
  unfold update_repo, lift, mbind at 1, IO_bind at 1.
  destruct (_validate_repo_name repo_name) as [e'|[]] eqn:Hv; simpl.
  { by intros [= _ ->]. }
  destruct (isinstance_str new_description); simpl; [|by intros [= _ ->]].
  unfold requests.patch. rewrite try_send.
  by destruct (net _) as [r|x]; [case_bool_decide|]; simpl.
Qed.

Lemma delete_repo_validation_error (str_container : pyval → pystr)
    (self : RepoClient) (repo_name : pystr)
    (net : remote) (log log' : list request) (msg : pystr) :
  delete_repo str_container self repo_name net log = (inl (ValidationError msg), log') →
  log' = log.
Proof.
  unfold delete_repo, lift, mbind at 1, IO_bind at 1.
  destruct (_validate_repo_name repo_name) as [e'|[]] eqn:Hv; simpl.
  { by intros [= _ ->]. }
  unfold requests.delete. rewrite try_send.
  by destruct (net _) as [r|x]; [case_bool_decide|]; simpl.
Qed.

(** C7: in [create_repo], [get_repo], [update_repo] and [delete_repo] a
    failed name validation, and in [create_repo] and [update_repo] a
    description that is not a string, raise [ValidationError] with the log
    of requests untouched; and whenever one of the four raises
    [ValidationError], nothing has been sent. *)
Theorem validation_precedes_network (str_container : pyval → pystr)
    (self : RepoClient) (repo_name : pystr)
    (description private new_description : pyval)
    (net : remote) (log : list request) :
  (∀ e, _validate_repo_name repo_name = inl e →
     ∃ msg, e = ValidationError msg
       ∧ create_repo str_container self repo_name description private net log
         = (inl (ValidationError msg), log)
       ∧ get_repo str_container self repo_name net log
         = (inl (ValidationError msg), log)
       ∧ update_repo str_container self repo_name new_description net log
         = (inl (ValidationError msg), log)
       ∧ delete_repo str_container self repo_name net log
         = (inl (ValidationError msg), log))
  ∧ (isinstance_str description = false →
     ∃ msg, create_repo str_container self repo_name description private net log
            = (inl (ValidationError msg), log))
  ∧ (isinstance_str new_description = false →
     ∃ msg, update_repo str_container self repo_name new_description net log
            = (inl (ValidationError msg), log))
  ∧ (∀ msg log',
       create_repo str_container self repo_name description private net log
         = (inl (ValidationError msg), log')
       ∨ get_repo str_container self repo_name net log
         = (inl (ValidationError msg), log')
       ∨ update_repo str_container self repo_name new_description net log
         = (inl (ValidationError msg), log')
       ∨ delete_repo str_container self repo_name net log
         = (inl (ValidationError msg), log') →
       log' = log).
Proof.
  split_and!.
  - intros e He. destruct (validate_error_kind _ _ He) as [msg ->].
    exists msg. split; [done|].
    by apply invalid_name_stops.
  - intros Hd. unfold create_repo, lift, mbind at 1, IO_bind at 1.
    destruct (_validate_repo_name repo_name) as [e|[]] eqn:Hv.
    + apply validate_error_kind in Hv as [msg ->]. eauto.
    + rewrite Hd. simpl. eauto.
  - intros Hd. unfold update_repo, lift, mbind at 1, IO_bind at 1.
    destruct (_validate_repo_name repo_name) as [e|[]] eqn:Hv.
    + apply validate_error_kind in Hv as [msg ->]. eauto.
    + rewrite Hd. simpl. eauto.
  - intros msg log' [H|[H|[H|H]]].
    + by eapply create_repo_validation_error.
    + by eapply get_repo_validation_error.
    + by eapply update_repo_validation_error.
    + by eapply delete_repo_validation_error.
Qed.

Lemma validation_precedes_network_witness :
  let self := {| token := Some (lit "t"); base_url := Some (lit "https://api.github.com");
                 headers := ∅; username := VStr (lit "octocat") |} in
  let net : remote := λ _, Raised {| exc_text := lit "unreachable"; exc_response := None |} in
  (∃ msg, get_repo (λ _, []) self (lit "invalid/name") net []
          = (inl (ValidationError msg), []))
  ∧ (∃ msg, update_repo (λ _, []) self (lit "test-repo") (VInt 123) net []
            = (inl (ValidationError msg), [])).
Proof.
  intros self net.
  destruct (validation_precedes_network (λ _, []) self (lit "invalid/name")
              (VStr []) (VBool false) (VStr []) net [])
    as (Hname & _ & _ & _).
  destruct (validation_precedes_network (λ _, []) self (lit "test-repo")
              (VStr []) (VBool false) (VInt 123) net [])
    as (_ & _ & Hdesc & _).
  split.
  - destruct (Hname (ValidationError msg_chars) eq_refl) as (msg & _ & _ & Hget & _).
    by exists msg.
  - apply Hdesc. reflexivity.
Defined.

(** C8: a call of [create_repo] that passes validation sends one POST to
    the repository-creation endpoint whose JSON body is a dictionary with
    exactly the keys name, description, private and auto_init, holding the
    arguments as given and [False] for auto_init. *)
Theorem create_repo_payload (str_container : pyval → pystr) (self : RepoClient)
    (repo_name : pystr) (description private : pyval)
    (net : remote) (log : list request) :
  _validate_repo_name repo_name = inr () →
  isinstance_str description = true →
  ∃ q d,
    snd (create_repo str_container self repo_name description private net log)
      = log ++ [q]
    ∧ req_method q = POST
    ∧ req_url q = str_opt (base_url self) ++ lit "/user/repos"
    ∧ req_json q = Some (VDict d)
    ∧ d !! lit "name" = Some (VStr repo_name)
    ∧ d !! lit "description" = Some description
    ∧ d !! lit "private" = Some private
    ∧ d !! lit "auto_init" = Some (VBool false)
    ∧ dom d = {[lit "name"; lit "description"; lit "private"; lit "auto_init"]}.
Proof.
  intros Hv Hd.
  unfold create_repo, lift, mbind at 1, IO_bind at 1. rewrite Hv, Hd. simpl.
  unfold requests.post. rewrite try_send.
  match goal with |- context [net ?q0] => exists q0 end.
  eexists. split_and!; [|done|done|reflexivity|..].
  - destruct (net _) as [r|x]; [case_bool_decide|]; simpl; try done.
    + case_bool_decide; [|done]. unfold status_of; simpl. io_unfold.
      by destruct (json_body r) as [[]|[]].
    + case_bool_decide; [|done]. io_unfold.
      destruct (exc_response x) as [r|]; [|done].
      by destruct (json_body r) as [[]|[]].
  - by rewrite !lookup_insert_ne, lookup_insert_eq by done.
  - by rewrite !lookup_insert_ne, lookup_insert_eq by done.
  - by rewrite !lookup_insert_ne, lookup_insert_eq by done.
  - by rewrite lookup_insert_eq.
  - rewrite !dom_insert_L, dom_empty_L. set_solver.
Qed.

Lemma create_repo_payload_witness :
  let self := {| token := Some (lit "t"); base_url := Some (lit "https://api.github.com");
                 headers := ∅; username := VStr (lit "octocat") |} in
  let net : remote :=
    λ _, Responded {| status_code := 201; reason := lit "Created";
                      url := lit "https://api.github.com/user/repos";
                      json_body := inr (VDict ∅) |} in
  ∃ q d,
    snd (create_repo (λ _, []) self (lit "test-repo") (VStr (lit "demo")) (VBool true) net [])
      = [] ++ [q]
    ∧ req_method q = POST
    ∧ req_url q = str_opt (base_url self) ++ lit "/user/repos"
    ∧ req_json q = Some (VDict d)
    ∧ d !! lit "name" = Some (VStr (lit "test-repo"))
    ∧ d !! lit "description" = Some (VStr (lit "demo"))
    ∧ d !! lit "private" = Some (VBool true)
    ∧ d !! lit "auto_init" = Some (VBool false)
    ∧ dom d = {[lit "name"; lit "description"; lit "private"; lit "auto_init"]}.
Proof.
  intros self net.
  apply (create_repo_payload (λ _, []) self (lit "test-repo") (VStr (lit "demo"))
           (VBool true) net []); reflexivity.
Defined.

(** X15, the part of C6 that holds: a 422 answer whose body is a JSON object
    becomes a [GitHubAPIError] with status 422 whose message ends in the
    object's [message] entry, or in "Validation failed" without one. *)
Lemma create_repo_unprocessable (str_container : pyval → pystr) (self : RepoClient)
    (repo_name : pystr) (description private : pyval)
    (net : remote) (log : list request) (r : response) (d : gmap pystr pyval) :
  _validate_repo_name repo_name = inr () →
  isinstance_str description = true →
  (∀ q, req_method q = POST → net q = Responded r) →
  status_code r = 422 →
  json_body r = inr (VDict d) →
  fst (create_repo str_container self repo_name description private net log)
  = inl (GitHubAPIError
           (lit "Failed to create repository: "
              ++ py_str str_container
                   (default (VStr (lit "Validation failed")) (d !! lit "message")))
           (Some 422)).
Proof.
  intros Hv Hd Hnet Hr Hbody.
  unfold create_repo, lift, mbind at 1, IO_bind at 1. rewrite Hv, Hd. simpl.
  unfold requests.post. rewrite try_send, Hnet by done.
  rewrite bool_decide_false by (rewrite http_error_msg_nil; lia).
  unfold status_of. simpl. rewrite Hr. simpl.
  io_unfold. by rewrite Hbody.
Qed.

(** C6, at the inputs that break it: a 422 answer whose body is JSON but
    not an object makes [create_repo] raise [AttributeError], and one whose
    body is not JSON makes it raise the decoding error of [requests]; in
    both cases no [GitHubAPIError] is raised. *)
Theorem create_repo_unprocessable_malformed (str_container : pyval → pystr) :
  let self := {| token := Some (lit "t"); base_url := Some (lit "https://api.github.com");
                 headers := ∅; username := VStr (lit "octocat") |} in
  let answer (body : json_failure + pyval) : remote :=
    λ _, Responded {| status_code := 422; reason := lit "Unprocessable Entity";
                      url := lit "https://api.github.com/user/repos";
                      json_body := body |} in
  fst (run (create_repo str_container self (lit "x") (VStr []) (VBool false))
           (answer (inr (VList []))))
  = inl AttributeError
  ∧ fst (run (create_repo str_container self (lit "x") (VStr []) (VBool false))
             (answer (inl (JSONDecodeError (lit "Expecting value")))))
    = inl (RequestException {| exc_text := lit "Expecting value"; exc_response := None |}).
Proof. split; reflexivity. Qed.

(** ** Which failures reach the caller *)



(** C9, at the inputs that break it: when the identity endpoint answers
    200 with a JSON object without [login], construction raises [KeyError];
    when it answers 200 with a JSON array, construction raises [TypeError].
    Neither is one of the client's two error kinds. *)
Theorem init_malformed_identity_escapes :
  let answer (body : pyval) : remote :=
    λ _, Responded {| status_code := 200; reason := lit "OK";
                      url := lit "https://api.github.com/user";
                      json_body := inr body |} in
  let result body :=
    fst (run (__init__ None (Some (lit "https://api.github.com"))
                       (Some (lit "test-token")) None) (answer body)) in
  result (VDict ∅) = inl (KeyError (lit "login"))
  ∧ result (VList []) = inl TypeError
  ∧ ¬ own_error (KeyError (lit "login"))
  ∧ ¬ own_error TypeError.
Proof. split_and!; [reflexivity|reflexivity|tauto|tauto]. Qed.

(** * Further properties of the code *)

(** ** Name validation, beyond the claims *)

(** X1: validation accepts exactly the names of at most 100 characters
    that are a non-empty run of [A-Za-z0-9_.-], optionally followed by one
    final newline, and that neither start with '-' nor end with '.'. *)
Theorem validate_accepts_iff (s : pystr) :
  _validate_repo_name s = inr () ↔
  len s ≤ MAX_REPO_NAME_LENGTH
  ∧ (∃ p t, s = p ++ t ∧ p ≠ [] ∧ Forall name_char p ∧ (t = [] ∨ t = [newline]))
  ∧ head s ≠ Some dash
  ∧ last s ≠ Some dot.
Proof.
  rewrite validate_first_failed_check. unfold first_failed_check; simpl.
  rewrite <- match_pattern_spec.
  case_bool_decide as Hnil.
  { subst s. split; [done|]. by intros (_ & Hm & _). }
  case_bool_decide as Hlen.
  { split; [done|]. intros (? & _). lia. }
  destruct (re.match_ REPO_NAME_PATTERN s); simpl.
  - case_bool_decide as Hb.
    + split; [done|]. intros (_ & _ & ? & ?). by destruct Hb.
    + split; [|done]. intros _. split_and!; [lia|done|..]; intros ?; apply Hb; auto.
  - split; [done|]. by intros (_ & ? & _).
Qed.

Lemma validate_rejects_foreign_char_witness :
  _validate_repo_name (lit "invalid/name") = inl (ValidationError msg_chars).
Proof.
  apply validate_rejects_foreign_char.
  - done.
  - vm_compute. discriminate.
  - intros H. apply Forall_forall with (x := 47%N) in H.
    + unfold name_char in H. lia.
    + apply list_elem_of_In. vm_compute. tauto.
  - intros p Hp. apply (f_equal last) in Hp. rewrite last_snoc in Hp.
    vm_compute in Hp. discriminate.
Defined.

(** X3: a name of more than 100 characters is rejected with the message
    that states the limit and the actual length, whatever it contains. *)
Theorem validate_too_long (s : pystr) :
  len s > MAX_REPO_NAME_LENGTH →
  _validate_repo_name s
  = inl (ValidationError
           (lit "Repository name cannot exceed 100 characters. Got "
              ++ str_int (len s) ++ lit " characters.")).
Proof.
  intros Hlen. rewrite validate_first_failed_check. unfold first_failed_check; simpl.
  rewrite bool_decide_false.
  - by rewrite bool_decide_true.
  - intros ->. unfold len, MAX_REPO_NAME_LENGTH in Hlen. simpl in Hlen. lia.
Qed.

Lemma validate_too_long_witness :
  _validate_repo_name (replicate 101 47%N)
  = inl (ValidationError
           (lit "Repository name cannot exceed 100 characters. Got "
              ++ str_int 101 ++ lit " characters.")).
Proof.
  apply (validate_too_long (replicate 101 47%N)). vm_compute. reflexivity.
Defined.

(** X4: a name of 1 to 100 characters from [A-Za-z0-9_.-] that starts with
    '-' or ends with '.' is rejected with the boundary message. *)
Theorem validate_boundary (s : pystr) :
  len s ≤ MAX_REPO_NAME_LENGTH →
  Forall name_char s →
  head s = Some dash ∨ last s = Some dot →
  _validate_repo_name s = inl (ValidationError msg_boundary).
Proof.
  intros Hlen Hchars Hb.
  assert (s ≠ []) as Hnil by (intros ->; by destruct Hb).
  rewrite validate_first_failed_check. unfold first_failed_check; simpl.
  rewrite bool_decide_false by done.
  rewrite bool_decide_false by lia.
  rewrite match_pattern_run by done. simpl.
  by rewrite bool_decide_true.
Qed.

Lemma validate_boundary_witness :
  _validate_repo_name (lit "endswithdot.") = inl (ValidationError msg_boundary).
Proof.
  apply validate_boundary.
  - vm_compute. discriminate.
  - let l := eval vm_compute in (lit "endswithdot.") in
    change (lit "endswithdot.") with l.
    repeat (apply Forall_cons; split; [unfold name_char; lia|]).
    apply Forall_nil_2.
  - right. reflexivity.
Defined.

(** X5: an accepted name holds no character that would change the shape
    of a request path: no '/', no '?', no '#', no '%', no space. *)
Theorem validate_accepted_path_safe (s : pystr) :
  _validate_repo_name s = inr () →
  (∀ c, c ∈ s → name_char c ∨ c = newline)
  ∧ (47%N ∉ s) ∧ (63%N ∉ s) ∧ (35%N ∉ s) ∧ (37%N ∉ s) ∧ (32%N ∉ s).
Proof.
  rewrite validate_first_failed_check. unfold first_failed_check; simpl.
  case_bool_decide; [done|]. case_bool_decide; [done|].
  destruct (re.match_ REPO_NAME_PATTERN s) eqn:Hm; [|done]. intros _.
  apply match_pattern_spec in Hm as (p & t & -> & _ & Hp & Ht).
  assert (∀ c, c ∈ p ++ t → name_char c ∨ c = newline) as Hall.
  { intros c [Hc|Hc]%elem_of_app.
    - left. by eapply Forall_forall in Hp.
    - right. destruct Ht as [-> | ->]; [by apply elem_of_nil in Hc|].
      by apply list_elem_of_singleton in Hc. }
  split_and!; [done|..];
    intros [Hc|Hc]%Hall; unfold name_char, newline in Hc; lia.
Qed.

Lemma validate_accepted_path_safe_witness : 47%N ∉ lit "test.repo".
Proof.
  apply (validate_accepted_path_safe (lit "test.repo")). reflexivity.
Defined.

(** ** Generated repository names *)

Lemma lower_or_digit_name_char c : lower_or_digit c → name_char c.
Proof. unfold lower_or_digit, name_char. lia. Qed.

Lemma alphabet_lower_or_digit : Forall lower_or_digit (ascii_lowercase ++ digits).
Proof.
  let l := eval vm_compute in (ascii_lowercase ++ digits) in
  change (ascii_lowercase ++ digits) with l.
  repeat (apply Forall_cons; split; [unfold lower_or_digit; lia|]).
  apply Forall_nil_2.
Qed.

(** Every draw lands inside the population. *)
Lemma choices_spec (population : pystr) (k : nat) (rnd : nat → nat) :
  population ≠ [] →
  ∃ picked, random.choices population k rnd = inr picked
            ∧ length picked = k
            ∧ Forall (λ c, c ∈ population) picked.
Proof.
  intros Hne. unfold random.choices. rewrite bool_decide_false by done.
  eexists. split_and!; [reflexivity|by rewrite length_fmap, length_seq|].
  apply Forall_fmap, Forall_forall. intros i _. simpl.
  apply list_elem_of_lookup_total_2, Nat.mod_upper_bound.
  by destruct population.
Qed.

(** The draws of [generate_test_repo_name]. *)
Lemma choices_alphabet (rnd : nat → nat) :
  ∃ picked, random.choices (ascii_lowercase ++ digits) 8 rnd = inr picked
            ∧ length picked = 8%nat
            ∧ Forall lower_or_digit picked.
Proof.
  destruct (choices_spec (ascii_lowercase ++ digits) 8 rnd) as (picked & Hp & Hlen & Hin);
    [done|].
  exists picked. split_and!; [done|done|].
  eapply Forall_impl; [exact Hin|]. intros c Hc. simpl in Hc.
  by eapply Forall_forall in Hc; [|apply alphabet_lower_or_digit].
Qed.

(** A well-formed prefix followed by eight lowercase letters or digits is
    a valid name. *)
Lemma validate_prefix_suffix (prefix suffix : pystr) :
  len prefix ≤ 92 →
  Forall name_char prefix →
  head prefix ≠ Some dash →
  length suffix = 8%nat →
  Forall lower_or_digit suffix →
  _validate_repo_name (prefix ++ suffix) = inr ().
Proof.
  intros Hlen Hchars Hhead Hk Hld.
  destruct suffix as [|c0 rest] using rev_ind; [done|]. clear IHrest.
  apply Forall_app in Hld as [Hrest [Hc0 _]%Forall_cons].
  rewrite validate_first_failed_check. unfold first_failed_check; simpl.
  rewrite bool_decide_false by (by destruct prefix, rest).
  rewrite bool_decide_false.
  2:{ unfold len, MAX_REPO_NAME_LENGTH in *. rewrite length_app, Hk. lia. }
  rewrite match_pattern_run; simpl.
  - rewrite bool_decide_false; [done|]. intros [Hd|Hd].
    + destruct prefix as [|p0 prefix]; [|by simpl in *].
      destruct rest as [|r0 rest]; simpl in Hd; injection Hd as ->.
      * unfold lower_or_digit, dash in Hc0. lia.
      * apply Forall_cons in Hrest as [Hr0 _].
        unfold lower_or_digit, dash in Hr0. lia.
    + rewrite app_assoc, last_snoc in Hd. injection Hd as ->.
      unfold lower_or_digit, dot in Hc0. lia.
  - by destruct prefix, rest.
  - apply Forall_app. split; [done|]. apply Forall_app. split.
    + eapply Forall_impl; [exact Hrest|apply lower_or_digit_name_char].
    + apply Forall_cons. split; [by apply lower_or_digit_name_char|done].
Qed.

Lemma test_repo_prefix_ok :
  len TEST_REPO_PREFIX ≤ 92 ∧ Forall name_char TEST_REPO_PREFIX
  ∧ head TEST_REPO_PREFIX ≠ Some dash.
Proof.
  split_and!; [by vm_compute| |by vm_compute].
  let l := eval vm_compute in TEST_REPO_PREFIX in change TEST_REPO_PREFIX with l.
  repeat (apply Forall_cons; split; [unfold name_char; lia|]).
  apply Forall_nil_2.
Qed.

(** X6: a generated name is the prefix followed by exactly eight
    characters, each a lowercase letter or a digit, whatever the random
    generator yields. *)
Theorem generated_name_shape (prefix : pystr) (rnd : nat → nat) :
  ∃ suffix, generate_test_repo_name prefix rnd = inr (prefix ++ suffix)
            ∧ length suffix = 8%nat
            ∧ Forall lower_or_digit suffix.
Proof.
  unfold generate_test_repo_name.
  destruct (choices_alphabet rnd) as (picked & -> & Hlen & Hld).
  by exists picked.
Qed.

(** X7: with a prefix of at most 92 characters from [A-Za-z0-9_.-] that
    does not start with '-', every generated name passes validation. *)
Theorem generated_name_valid (prefix : pystr) (rnd : nat → nat) :
  len prefix ≤ 92 →
  Forall name_char prefix →
  head prefix ≠ Some dash →
  ∃ name, generate_test_repo_name prefix rnd = inr name
          ∧ _validate_repo_name name = inr ().
Proof.
  intros Hlen Hchars Hhead.
  unfold generate_test_repo_name.
  destruct (choices_alphabet rnd) as (picked & -> & Hk & Hld).
  exists (prefix ++ picked). split; [done|].
  by apply validate_prefix_suffix.
Qed.

Lemma generated_name_valid_witness :
  ∃ name, generate_test_repo_name TEST_REPO_PREFIX (λ i, 7 * i + 3)%nat = inr name
          ∧ _validate_repo_name name = inr ().
Proof.
  apply generated_name_valid; apply test_repo_prefix_ok.
Defined.

(** ** Reading, updating and deleting *)

(** The message of the error raised by an operation on a repository. *)
Lemma perform_run (str_container : pyval → pystr) (self : RepoClient)
    (op : operation) (repo_name : pystr) (net : remote) (log : list request) :
  _validate_repo_name repo_name = inr () →
  let q := {| req_method := http_method op;
              req_url := repo_url str_container self repo_name;
              req_headers := headers self;
              req_json := body_of op;
              req_timeout := 10 |} in
  let failed text :=
    lit "Failed to " ++ verb op ++ lit " repository '" ++ repo_name ++ lit "': " ++ text in
  perform str_container self op repo_name net log
  = (match net q with
     | Responded r =>
         if bool_decide (requests.http_error_msg r = []) then inr r
         else inl (GitHubAPIError (failed (requests.http_error_msg r))
                     (Some (status_code r)))
     | Raised e => inl (GitHubAPIError (failed (exc_text e)) (status_of e))
     end, log ++ [q]).
Proof.
  intros Hv q failed. subst q failed.
  destruct op as [|d|]; simpl;
    unfold get_repo, update_repo, delete_repo, lift, mbind at 1, IO_bind at 1;
    rewrite Hv; simpl;
    unfold requests.get, requests.patch, requests.delete; rewrite try_send;
    (destruct (net _) as [r|e]; [case_bool_decide|]); reflexivity.
Qed.

(** X11: an operation on a repository with a valid name sends exactly one
    request, whatever the remote then does: GET, PATCH or DELETE to
    [<base>/repos/<principal>/<name>], with the session's headers, a
    timeout of 10, and a body only for the update, which is exactly
    [{description: new_description}]. *)
Theorem operation_request (str_container : pyval → pystr) (self : RepoClient)
    (op : operation) (repo_name : pystr) (net : remote) (log : list request) :
  _validate_repo_name repo_name = inr () →
  ∃ q, snd (perform str_container self op repo_name net log) = log ++ [q]
       ∧ req_method q = http_method op
       ∧ req_url q = str_opt (base_url self) ++ lit "/repos/"
                       ++ py_str str_container (username self) ++ lit "/" ++ repo_name
       ∧ req_headers q = headers self
       ∧ req_json q = body_of op
       ∧ req_timeout q = 10.
Proof.
  intros Hv. rewrite perform_run by done. simpl. eexists. split; [reflexivity|done].
Qed.

Lemma operation_request_witness :
  let self := {| token := Some (lit "t"); base_url := Some (lit "https://api.github.com");
                 headers := {[ lit "Accept" := lit "application/vnd.github.v3+json" ]};
                 username := VStr (lit "octocat") |} in
  let net : remote := λ _, Raised {| exc_text := lit "timed out"; exc_response := None |} in
  ∃ q, snd (perform (λ _, []) self (Update (lit "new text")) (lit "test-repo") net []) = [q]
       ∧ req_method q = PATCH
       ∧ req_url q = lit "https://api.github.com/repos/octocat/test-repo"
       ∧ req_json q = Some (VDict {[ lit "description" := VStr (lit "new text") ]}).
Proof.
  intros self net.
  destruct (operation_request (λ _, []) self (Update (lit "new text")) (lit "test-repo")
              net [] eq_refl) as (q & Hlog & Hm & Hu & _ & Hj & _).
  exists q. split_and!; [exact Hlog|exact Hm|exact Hu|exact Hj].
Defined.

(** X12: when the remote answers with a status outside 400 to 599, each of
    the four operations returns that very response, unchanged. *)
Theorem success_returns_response (str_container : pyval → pystr) (self : RepoClient)
    (repo_name : pystr) (net : remote) (log : list request) (r : response) :
  _validate_repo_name repo_name = inr () →
  (∀ q, net q = Responded r) →
  ¬ (400 ≤ status_code r < 600) →
  (∀ op, fst (perform str_container self op repo_name net log) = inr r)
  ∧ (∀ description private,
       fst (create_repo str_container self repo_name (VStr description) private net log)
       = inr r).
Proof.
  intros Hv Hnet Hok. apply http_error_msg_nil in Hok. split.
  - intros op. rewrite perform_run by done. simpl.
    by rewrite Hnet, bool_decide_true.
  - intros description private.
    unfold create_repo, lift, mbind at 1, IO_bind at 1. rewrite Hv. simpl.
    unfold requests.post. rewrite try_send, Hnet.
    by rewrite bool_decide_true.
Qed.

Lemma success_returns_response_witness :
  let self := {| token := Some (lit "t"); base_url := Some (lit "https://api.github.com");
                 headers := ∅; username := VStr (lit "octocat") |} in
  let r := {| status_code := 204; reason := lit "No Content";
              url := lit "https://api.github.com/repos/octocat/test-repo";
              json_body := inl (JSONDecodeError (lit "Expecting value")) |} in
  fst (run (delete_repo (λ _, []) self (lit "test-repo")) (λ _, Responded r)) = inr r.
Proof.
  intros self r.
  destruct (success_returns_response (λ _, []) self (lit "test-repo")
              (λ _, Responded r) [] r eq_refl (λ _, eq_refl)) as [Hop _].
  - simpl. lia.
  - exact (Hop Delete).
Defined.

(** X13: when the remote answers an operation on a repository with a
    status from 400 to 599 (404 for a repository that does not exist), the
    operation raises [GitHubAPIError] carrying that status, with a message
    that names the operation and the repository before the HTTP error
    text. *)
Theorem operation_http_error (str_container : pyval → pystr) (self : RepoClient)
    (op : operation) (repo_name : pystr) (net : remote) (log : list request)
    (r : response) :
  _validate_repo_name repo_name = inr () →
  (∀ q, req_method q = http_method op → net q = Responded r) →
  400 ≤ status_code r < 600 →
  fst (perform str_container self op repo_name net log)
  = inl (GitHubAPIError
           (lit "Failed to " ++ verb op ++ lit " repository '" ++ repo_name ++ lit "': "
              ++ requests.http_error_msg r)
           (Some (status_code r))).
Proof.
  intros Hv Hnet Hst. rewrite perform_run by done. simpl.
  rewrite Hnet by done.
  rewrite bool_decide_false; [done|]. rewrite http_error_msg_nil. tauto.
Qed.

Lemma operation_http_error_witness :
  let self := {| token := Some (lit "t"); base_url := Some (lit "https://api.github.com");
                 headers := ∅; username := VStr (lit "octocat") |} in
  let r := {| status_code := 404; reason := lit "Not Found";
              url := lit "https://api.github.com/repos/octocat/missing";
              json_body := inr (VDict ∅) |} in
  fst (run (get_repo (λ _, []) self (lit "missing")) (λ _, Responded r))
  = inl (GitHubAPIError
           (lit "Failed to get repository 'missing': 404 Client Error: Not Found for url: https://api.github.com/repos/octocat/missing")
           (Some 404)).
Proof.
  intros self r.
  apply (operation_http_error (λ _, []) self Get (lit "missing") (λ _, Responded r) [] r
           eq_refl (λ _ _, eq_refl)).
  simpl. lia.
Defined.

(** X14: when [requests] itself raises during an operation on a repository
    (connection failure, timeout), the operation raises [GitHubAPIError]
    whose message names the operation and the repository before the text
    of the failure; its status is that of the response attached to the
    failure, and absent when there is none. *)
Theorem operation_transport_failure (str_container : pyval → pystr)
    (self : RepoClient) (op : operation) (repo_name : pystr)
    (net : remote) (log : list request) (e : request_exception) :
  _validate_repo_name repo_name = inr () →
  (∀ q, req_method q = http_method op → net q = Raised e) →
  fst (perform str_container self op repo_name net log)
  = inl (GitHubAPIError
           (lit "Failed to " ++ verb op ++ lit " repository '" ++ repo_name ++ lit "': "
              ++ exc_text e)
           (status_code <$> exc_response e))
  ∧ (exc_response e = None →
     ∃ msg, fst (perform str_container self op repo_name net log)
            = inl (GitHubAPIError msg None)).
Proof.
  intros Hv Hnet. rewrite perform_run by done. simpl.
  rewrite Hnet by done. split; [done|].
  intros He. unfold status_of. rewrite He. simpl. eauto.
Qed.

Lemma operation_transport_failure_witness :
  let self := {| token := Some (lit "t"); base_url := Some (lit "https://api.github.com");
                 headers := ∅; username := VStr (lit "octocat") |} in
  let e := {| exc_text := lit "timed out"; exc_response := None |} in
  fst (run (delete_repo (λ _, []) self (lit "test-repo")) (λ _, Raised e))
  = inl (GitHubAPIError (lit "Failed to delete repository 'test-repo': timed out") None).
Proof.
  intros self e.
  apply (operation_transport_failure (λ _, []) self Delete (lit "test-repo")
           (λ _, Raised e) [] e eq_refl (λ _ _, eq_refl)).
Defined.



(** ** Creating *)

(** X19: a failure of [create_repo]'s request whose status is not 422
    becomes a [GitHubAPIError] with the message "Failed to create
    repository: " followed by the failure text, carrying the status of the
    response when there is one and none otherwise. *)
Theorem create_repo_failure (str_container : pyval → pystr) (self : RepoClient)
    (repo_name description : pystr) (private : pyval)
    (net : remote) (log : list request) :
  _validate_repo_name repo_name = inr () →
  (∀ r, (∀ q, req_method q = POST → net q = Responded r) →
        400 ≤ status_code r < 600 → status_code r ≠ 422 →
        fst (create_repo str_container self repo_name (VStr description) private net log)
        = inl (GitHubAPIError
                 (lit "Failed to create repository: " ++ requests.http_error_msg r)
                 (Some (status_code r))))
  ∧ (∀ e, (∀ q, req_method q = POST → net q = Raised e) →
          status_code <$> exc_response e ≠ Some 422 →
          fst (create_repo str_container self repo_name (VStr description) private net log)
          = inl (GitHubAPIError
                   (lit "Failed to create repository: " ++ exc_text e)
                   (status_code <$> exc_response e))).
Proof.
  intros Hv. split.
  - intros r Hnet Hst Hne.
    unfold create_repo, lift, mbind at 1, IO_bind at 1. rewrite Hv. simpl.
    unfold requests.post. rewrite try_send, Hnet by done.
    rewrite bool_decide_false by (rewrite http_error_msg_nil; tauto).
    unfold status_of. simpl.
    rewrite bool_decide_false; [done|]. by intros [= ?].
  - intros e Hnet Hne.
    unfold create_repo, lift, mbind at 1, IO_bind at 1. rewrite Hv. simpl.
    unfold requests.post. rewrite try_send, Hnet by done.
    unfold status_of. by rewrite bool_decide_false.
Qed.

Lemma create_repo_failure_witness :
  let self := {| token := Some (lit "t"); base_url := Some (lit "https://api.github.com");
                 headers := ∅; username := VStr (lit "octocat") |} in
  let r := {| status_code := 400; reason := lit "Bad Request";
              url := lit "https://api.github.com/user/repos";
              json_body := inr (VDict ∅) |} in
  fst (run (create_repo (λ _, []) self (lit "test-repo") (VStr []) (VBool false))
           (λ _, Responded r))
  = inl (GitHubAPIError
           (lit "Failed to create repository: " ++ requests.http_error_msg r) (Some 400)).
Proof.
  intros self r.
  destruct (create_repo_failure (λ _, []) self (lit "test-repo") [] (VBool false)
              (λ _, Responded r) [] eq_refl) as [Hhttp _].
  apply (Hhttp r (λ _ _, eq_refl)); simpl; lia.
Defined.

Lemma create_repo_unprocessable_witness :
  let self := {| token := Some (lit "t"); base_url := Some (lit "https://api.github.com");
                 headers := ∅; username := VStr (lit "octocat") |} in
  let answer d : remote :=
    λ _, Responded {| status_code := 422; reason := lit "Unprocessable Entity";
                      url := lit "https://api.github.com/user/repos";
                      json_body := inr (VDict d) |} in
  fst (run (create_repo (λ _, []) self (lit "test-repo") (VStr []) (VBool false))
           (answer ∅))
  = inl (GitHubAPIError (lit "Failed to create repository: Validation failed") (Some 422)).
Proof.
  intros self answer. unfold run.
  etrans.
  - apply (create_repo_unprocessable (λ _, []) self (lit "test-repo") (VStr [])
             (VBool false) (answer ∅) [] _ ∅ eq_refl eq_refl (λ _ _, eq_refl));
      reflexivity.
  - reflexivity.
Defined.



(** ** Construction, beyond the claims *)

(** What a successful construction tells about the remote and the client. *)
Lemma init_inversion (GITHUB_TOKEN BASE_URL tok burl : option pystr)
    (net : remote) (log : list request) (c : RepoClient) :
  fst (__init__ GITHUB_TOKEN BASE_URL tok burl net log) = inr c →
  let hs : gmap pystr pystr :=
    <[lit "Accept" := lit "application/vnd.github.v3+json"]>
      (<[lit "Authorization" := lit "token " ++ str_opt (py_or tok GITHUB_TOKEN)]> ∅) in
  let q := {| req_method := GET;
              req_url := str_opt (py_or burl BASE_URL) ++ lit "/user";
              req_headers := hs; req_json := None; req_timeout := 10 |} in
  truthy (py_or tok GITHUB_TOKEN) = true
  ∧ snd (__init__ GITHUB_TOKEN BASE_URL tok burl net log) = log ++ [q]
  ∧ ∃ r d, net q = Responded r
           ∧ ¬ (400 ≤ status_code r < 600)
           ∧ json_body r = inr (VDict d)
           ∧ d !! lit "login" = Some (username c)
           ∧ c = {| token := py_or tok GITHUB_TOKEN; base_url := py_or burl BASE_URL;
                    headers := hs; username := username c |}.
Proof.
  unfold __init__.
  destruct (truthy (py_or tok GITHUB_TOKEN)); simpl; [|done].
  unfold requests.get. rewrite try_send.
  destruct (net _) as [r|x] eqn:Hq; [case_bool_decide as Hst|]; simpl;
    [|case_bool_decide; by intros [=]..].
  apply http_error_msg_nil in Hst.
  io_unfold. destruct (json_body r) as [t|v] eqn:Hbody; simpl.
  { destruct t; simpl; try case_bool_decide; by intros [=]. }
  destruct v as [| | | | |d]; simpl; try done.
  destruct (d !! lit "login") as [u|] eqn:Hlogin; simpl; [|done].
  intros [= <-]. split_and!; [done|done|].
  by exists r, d.
Qed.

(** X8: with a token resolved, a failure of the authentication probe with
    a status other than 401 raises [GitHubAPIError] with the message
    "Failed to authenticate with GitHub: " followed by the failure text; it
    carries the status of the response, and no status when [requests]
    failed without one. *)
Theorem init_failure (GITHUB_TOKEN BASE_URL tok burl : option pystr)
    (net : remote) (log : list request) :
  truthy (py_or tok GITHUB_TOKEN) = true →
  (∀ r, (∀ q, req_method q = GET → net q = Responded r) →
        400 ≤ status_code r < 600 → status_code r ≠ 401 →
        fst (__init__ GITHUB_TOKEN BASE_URL tok burl net log)
        = inl (GitHubAPIError
                 (lit "Failed to authenticate with GitHub: " ++ requests.http_error_msg r)
                 (Some (status_code r))))
  ∧ (∀ e, (∀ q, req_method q = GET → net q = Raised e) →
          status_code <$> exc_response e ≠ Some 401 →
          fst (__init__ GITHUB_TOKEN BASE_URL tok burl net log)
          = inl (GitHubAPIError
                   (lit "Failed to authenticate with GitHub: " ++ exc_text e)
                   (status_code <$> exc_response e))).
Proof.
  intros Htok. split.
  - intros r Hnet Hst Hne. unfold __init__. rewrite Htok. simpl.
    unfold requests.get. rewrite try_send, Hnet by done.
    rewrite bool_decide_false by (rewrite http_error_msg_nil; tauto).
    unfold status_of. simpl.
    rewrite bool_decide_false; [done|]. by intros [= ?].
  - intros e Hnet Hne. unfold __init__. rewrite Htok. simpl.
    unfold requests.get. rewrite try_send, Hnet by done.
    unfold status_of. by rewrite bool_decide_false.
Qed.

Lemma init_failure_witness :
  fst (run (__init__ None (Some (lit "https://api.github.com")) (Some (lit "t")) None)
           (λ _, Raised {| exc_text := lit "connection refused"; exc_response := None |}))
  = inl (GitHubAPIError (lit "Failed to authenticate with GitHub: connection refused") None).
Proof.
  destruct (init_failure None (Some (lit "https://api.github.com")) (Some (lit "t")) None
              (λ _, Raised {| exc_text := lit "connection refused"; exc_response := None |})
              [] eq_refl) as [_ Hraised].
  apply (Hraised _ (λ _ _, eq_refl)). discriminate.
Defined.

(** X9: a constructed client always holds a non-empty token; its headers
    are exactly [Authorization: token <token>] and the JSON [Accept]
    header; and its principal is the [login] entry of the JSON object with
    which the remote answered the probe, outside the error statuses. *)
Theorem init_session (GITHUB_TOKEN BASE_URL tok burl : option pystr)
    (net : remote) (log : list request) (c : RepoClient) :
  fst (__init__ GITHUB_TOKEN BASE_URL tok burl net log) = inr c →
  truthy (token c) = true
  ∧ headers c !! lit "Authorization" = Some (lit "token " ++ str_opt (token c))
  ∧ headers c !! lit "Accept" = Some (lit "application/vnd.github.v3+json")
  ∧ dom (headers c) = {[lit "Authorization"; lit "Accept"]}
  ∧ ∃ q r d, net q = Responded r
             ∧ req_url q = str_opt (base_url c) ++ lit "/user"
             ∧ ¬ (400 ≤ status_code r < 600)
             ∧ json_body r = inr (VDict d)
             ∧ d !! lit "login" = Some (username c).
Proof.
  intros Hc. destruct (init_inversion _ _ _ _ _ _ _ Hc)
    as (Htok & _ & r & d & Hq & Hst & Hbody & Hlogin & ->).
  simpl. split_and!.
  - done.
  - rewrite lookup_insert_ne by done. apply lookup_insert_eq.
  - apply lookup_insert_eq.
  - rewrite !dom_insert_L, dom_empty_L. set_solver.
  - eexists _, r, d. split_and!; [exact Hq|done..].
Qed.

Lemma init_session_witness :
  let net : remote :=
    λ _, Responded {| status_code := 200; reason := lit "OK";
                      url := lit "https://api.github.com/user";
                      json_body := inr (VDict {[ lit "login" := VStr (lit "octocat") ]}) |} in
  ∃ c, fst (run (__init__ None (Some (lit "https://api.github.com"))
                          (Some (lit "t")) None) net) = inr c
       ∧ truthy (token c) = true.
Proof.
  intros net. eexists. split; [reflexivity|].
  eapply (init_session None (Some (lit "https://api.github.com")) (Some (lit "t")) None
            net []).
  reflexivity.
Defined.

(** X10: construction sends at most one request, and only the identity
    probe: a GET of [<base>/user] without a body, with the token in the
    [Authorization] header, the JSON [Accept] header and a timeout of 10.
    Nothing is retried, whatever the remote answers. *)
Theorem init_sends_one_probe (GITHUB_TOKEN BASE_URL tok burl : option pystr)
    (net : remote) (log : list request) :
  snd (__init__ GITHUB_TOKEN BASE_URL tok burl net log) = log
  ∨ ∃ q, snd (__init__ GITHUB_TOKEN BASE_URL tok burl net log) = log ++ [q]
         ∧ req_method q = GET
         ∧ req_url q = str_opt (py_or burl BASE_URL) ++ lit "/user"
         ∧ req_headers q !! lit "Authorization"
           = Some (lit "token " ++ str_opt (py_or tok GITHUB_TOKEN))
         ∧ req_headers q !! lit "Accept" = Some (lit "application/vnd.github.v3+json")
         ∧ req_json q = None
         ∧ req_timeout q = 10.
Proof.
  unfold __init__.
  destruct (truthy (py_or tok GITHUB_TOKEN)); simpl; [right|by left].
  unfold requests.get. rewrite try_send.
  match goal with |- context [net ?q0] => exists q0 end.
  split_and!; [|done|done| |done|done|done].
  - destruct (net _) as [r|x]; [case_bool_decide|]; simpl;
      [|by case_bool_decide..].
    io_unfold. destruct (json_body r) as [[]|[]]; simpl; try done;
      try (by case_bool_decide).
    by destruct (_ !! _).
  - simpl. rewrite lookup_insert_ne by done. apply lookup_insert_eq.
Qed.

(** ** The session across calls *)

(** X20: what construction established drives every later call: an
    operation on a repository, made with a constructed client, goes to
    [<base>/repos/<login>/<name>], where the base URL is the one resolved at
    construction and the login is the one the identity endpoint returned,
    and it carries the headers of the probe, the resolved token among
    them. *)
Theorem session_drives_requests (GITHUB_TOKEN BASE_URL tok burl : option pystr)
    (str_container : pyval → pystr) (net : remote) (log : list request)
    (c : RepoClient) (op : operation) (repo_name : pystr)
    (net' : remote) (log' : list request) :
  fst (__init__ GITHUB_TOKEN BASE_URL tok burl net log) = inr c →
  _validate_repo_name repo_name = inr () →
  ∃ probe answer d login q,
    snd (__init__ GITHUB_TOKEN BASE_URL tok burl net log) = log ++ [probe]
    ∧ net probe = Responded answer
    ∧ json_body answer = inr (VDict d)
    ∧ d !! lit "login" = Some login
    ∧ snd (perform str_container c op repo_name net' log') = log' ++ [q]
    ∧ req_url q = str_opt (py_or burl BASE_URL) ++ lit "/repos/"
                    ++ py_str str_container login ++ lit "/" ++ repo_name
    ∧ req_headers q = req_headers probe
    ∧ req_headers q !! lit "Authorization"
      = Some (lit "token " ++ str_opt (py_or tok GITHUB_TOKEN)).
Proof.
  intros Hc Hv.
  destruct (init_inversion _ _ _ _ _ _ _ Hc)
    as (_ & Hlog & r & d & Hq & _ & Hbody & Hlogin & Hrec).
  rewrite perform_run by done. rewrite Hrec. simpl.
  eexists _, r, d, (username c), _.
  split_and!; [exact Hlog|exact Hq|exact Hbody|exact Hlogin|reflexivity|done|done|].
  simpl. rewrite lookup_insert_ne by done. apply lookup_insert_eq.
Qed.

Lemma session_drives_requests_witness :
  let net : remote :=
    λ _, Responded {| status_code := 200; reason := lit "OK";
                      url := lit "https://api.github.com/user";
                      json_body := inr (VDict {[ lit "login" := VStr (lit "octocat") ]}) |} in
  ∃ c q,
    fst (run (__init__ None (Some (lit "https://api.github.com")) (Some (lit "t")) None) net)
    = inr c
    ∧ snd (run (get_repo (λ _, []) c (lit "test-repo")) net) = [q]
    ∧ req_url q = lit "https://api.github.com/repos/octocat/test-repo".
Proof.
  intros net. eexists. 
  destruct (session_drives_requests None (Some (lit "https://api.github.com"))
              (Some (lit "t")) None (λ _, []) net [] _ Get (lit "test-repo") net []
              eq_refl eq_refl)
    as (probe & answer & d & login & q & _ & Hp & Hb & Hl & Hlog & Hurl & _).
  exists q. split_and!; [reflexivity|exact Hlog|].
  rewrite Hurl. simpl in Hp. injection Hp as <-. simpl in Hb. injection Hb as <-.
  vm_compute in Hl. injection Hl as <-. reflexivity.
Defined.

(** ** Fixtures of the test suite *)

Lemma create_repo_log (str_container : pyval → pystr) (self : RepoClient)
    (repo_name description : pystr) (private : pyval)
    (net : remote) (log : list request) :
  _validate_repo_name repo_name = inr () →
  snd (create_repo str_container self repo_name (VStr description) private net log)
  = log ++ [{| req_method := POST;
               req_url := str_opt (base_url self) ++ lit "/user/repos";
               req_headers := headers self;
               req_json :=
                 Some (VDict (<[lit "auto_init" := VBool false]>
                                (<[lit "private" := private]>
                                   (<[lit "description" := VStr description]>
                                      (<[lit "name" := VStr repo_name]> ∅)))));
               req_timeout := 10 |}].
Proof.
  intros Hv.
  unfold create_repo, lift, mbind at 1, IO_bind at 1. rewrite Hv. simpl.
  unfold requests.post. rewrite try_send.
  destruct (net _) as [r|x]; [case_bool_decide|]; simpl; try done.
  - case_bool_decide; [|done]. unfold status_of; simpl. io_unfold.
    by destruct (json_body r) as [[]|[]].
  - case_bool_decide; [|done]. io_unfold.
    destruct (exc_response x) as [r|]; [|done].
    by destruct (json_body r) as [[]|[]].
Qed.

Lemma teardown_class_valid (str_container : pyval → pystr) (client : RepoClient)
    (test_repo : pystr) (net : remote) (log : list request) :
  _validate_repo_name test_repo = inr () →
  ∃ q, teardown_class str_container client test_repo net log = (inr (), log ++ [q])
       ∧ req_method q = DELETE
       ∧ req_url q = repo_url str_container client test_repo.
Proof.
  intros Hv. unfold teardown_class, except_api_error_pass.
  change (delete_repo str_container client test_repo)
    with (perform str_container client Delete test_repo).
  rewrite perform_run by done. simpl.
  match goal with |- context [net ?q0] => exists q0 end.
  split; [|done].
  by destruct (net _) as [r|x]; [case_bool_decide|].
Qed.





(** ** The order of the checks *)

(** X23: for every name that is not a run of characters from
    [A-Za-z0-9_.-] followed by one final newline, validation raises the
    error of the earliest rule the name breaks, in the order empty, length,
    character set, boundary, and returns normally when it breaks none. For
    every name whatsoever no [IndexError] leaves the validator, and the
    first and last character can be read exactly when the name is not
    empty, which the first check ensures before the last one reads them. *)
Theorem validate_earliest_violation (s : pystr) :
  ((∀ p, p ≠ [] → Forall name_char p → s ≠ p ++ [newline]) →
   _validate_repo_name s =
     match first_violation s with
     | Some r => inl (ValidationError (message r s))
     | None => inr ()
     end)
  ∧ _validate_repo_name s ≠ inl IndexError
  ∧ (s ≠ [] ↔ ∃ a b, getitem s 0 = inr a ∧ getitem s (-1) = inr b).
Proof.
  split_and!.
  - intros Hnl. rewrite validate_first_failed_check.
    unfold first_failed_check, first_violation.
    destruct (decide (s = [])) as [->|Hnil]; [done|].
    pose proof (charset_check_agrees s Hnil Hnl) as Hcs.
    cbn [find]. rewrite Hcs. reflexivity.
  - intros H. by apply validate_error_kind in H as [? ?].
  - split.
    + intros Hnil.
      destruct (getitem_ends s Hnil) as (a & b & _ & _ & ? & ?). eauto.
    + intros (a & b & Ha & _) ->. done.
Qed.

Lemma validate_earliest_violation_witness :
  let s := lit "-bad name." in
  violates Charset s = true ∧ violates Boundary s = true
  ∧ _validate_repo_name s = inl (ValidationError (message Charset s)).
Proof.
  intros s. split_and!; [by vm_compute..|].
  destruct (validate_earliest_violation s) as [Hfirst _].
  etrans; [apply Hfirst|by vm_compute].
  intros p _ _ Hs. apply (f_equal last) in Hs. rewrite last_snoc in Hs.
  vm_compute in Hs. discriminate.
Defined.
